(** * SyncthingSnitch: the poll / filter / notify / persist cycle

    A shallow embedding of [SyncthingSnitch.py].  One invocation of the script
    reads the cursor file, performs one long-poll request against the
    Syncthing event endpoint, walks over the returned events, forwards the
    qualifying ones to a Telegram bot and writes the cursor back.

    Python values are modelled as follows: [int] is [Z] (unbounded), [str] is
    [string] (a sequence of bytes, the ASCII fragment being interpreted),
    [None]-or-value is [option], a Python list is [list].  Code that raises,
    calls [exit] or touches the outside world runs in the monad [M] below,
    which threads a [world] and yields a value, an exception or an exit
    status. *)

From Stdlib Require Import ZArith List String Ascii Bool Lia.
From Stdlib Require Import Decimal DecimalString DecimalZ DecimalPos.
From Stdlib Require Import Sorted.
Import ListNotations.

#[local] Open Scope string_scope.
#[local] Open Scope Z_scope.

(** ** Python built-ins used by the script *)

Module Py.

(** [str(n)] for an [int]: the decimal digits, a leading ["-"] when
    negative, no leading zeros. *)
Definition str (n : Z) : string := NilZero.string_of_int (Z.to_int n).

(** Whitespace removed by [int()] at both ends of an ASCII argument: TAB,
    LF, VT, FF, CR and SPACE. *)
Definition is_space (c : ascii) : bool :=
  let n := N_of_ascii c in
  ((9 <=? n) && (n <=? 13) || (n =? 32))%N.

Fixpoint lstrip (s : string) : string :=
  match s with
  | String c r => if is_space c then lstrip r else s
  | EmptyString => EmptyString
  end.

Fixpoint rstrip (s : string) : string :=
  match s with
  | String c r =>
      match rstrip r with
      | EmptyString => if is_space c then EmptyString else String c EmptyString
      | r' => String c r'
      end
  | EmptyString => EmptyString
  end.

Definition strip (s : string) : string := rstrip (lstrip s).

Definition digit_of (c : ascii) : option Z :=
  let n := N_of_ascii c in
  if ((48 <=? n) && (n <=? 57))%N then Some (Z.of_N n - 48) else None.

(** The digit part of a decimal literal given to [int()]: at least one
    digit, and single underscores allowed between two digits.  [after_digit]
    tells whether the previous character was a digit. *)
Fixpoint digits_value (s : string) (acc : Z) (after_digit : bool) : option Z :=
  match s with
  | EmptyString => if after_digit then Some acc else None
  | String c r =>
      match digit_of c with
      | Some d => digits_value r (10 * acc + d) true
      | None =>
          if Ascii.eqb c "_" && after_digit then digits_value r acc false
          else None
      end
  end.

(** [int(s)] for a [str] of ASCII characters: surrounding whitespace is
    dropped, a sign may come first, then the digits.  [None] stands for the
    [ValueError] that [int] raises on a malformed literal.  What [int] does
    with characters outside ASCII (it takes other decimal digits and other
    whitespace) and with more digits than the interpreter's limit on the
    conversion (4300 by default) is not part of this definition: see
    [in_model] below. *)
Definition int (s : string) : option Z :=
  match strip s with
  | String c r =>
      if Ascii.eqb c "-" then option_map Z.opp (digits_value r 0 false)
      else if Ascii.eqb c "+" then digits_value r 0 false
      else digits_value (String c r) 0 false
  | EmptyString => None
  end.

Fixpoint all_ascii (s : string) : bool :=
  match s with
  | String c r => (N_of_ascii c <? 128)%N && all_ascii r
  | EmptyString => true
  end.

(** The arguments on which [int] above is [int()] of the interpreter: ASCII
    characters only, and no more of them than the limit on the number of
    digits. *)
Definition in_model (s : string) : bool :=
  all_ascii s && (String.length s <=? 4300)%nat.

(** [prefix in s] as [s.startswith(prefix)]. *)
Definition startswith (s p : string) : bool := String.prefix p s.

(** [needle in hay] for two [str]. *)
Fixpoint contains (needle hay : string) : bool :=
  String.prefix needle hay
  || match hay with
     | String _ r => contains needle r
     | EmptyString => false
     end.

(** [x in l] for a list of [str]. *)
Definition mem (x : string) (l : list string) : bool :=
  existsb (String.eqb x) l.

(** [os.path.basename]: what follows the last ["/"]. *)
Fixpoint basename (p : string) : string :=
  match p with
  | String c r =>
      if contains "/" r then basename r
      else if Ascii.eqb c "/" then r else p
  | EmptyString => EmptyString
  end.

End Py.

(** ** Data model *)

(** The [data] object of a disk event. *)
Record event_data := {
  data_action : string;   (* event["data"]["action"] *)
  data_type : string;     (* event["data"]["type"] *)
  data_label : string;    (* event["data"]["label"] *)
  data_path : string      (* event["data"]["path"] *)
}.

(** One element of the JSON array returned by [/rest/events/disk]. *)
Record event := {
  ev_id : Z;              (* event["id"] *)
  ev_type : string;       (* event["type"] *)
  ev_data : event_data    (* event["data"] *)
}.

(** The [argparse] namespace handed to every function. *)
Record args := {
  telegram_chat_id : string;
  telegram_bot_token : string;
  host : string;
  port : Z;
  auth : string;
  timeout : Z;                     (* type=int, default 10 *)
  ssl : bool;
  label : option (list string);    (* action="append": None or a list *)
  filter_movies : bool;
  id_file_location : string;
  verbose : Z                      (* action="count", default 0 *)
}.

(** What the script logs, one constructor per format string. *)
Inductive log_msg :=
| MsgArguments                          (* "Arguments: %s" *)
| MsgUsedUrl (url : string)             (* "Used url: '%s'" *)
| MsgFetchError                         (* "Error while fetching events. Gonna try again..." *)
| MsgTelegramError                      (* "Telegram error: %s" *)
| MsgSendSucceed (i : Z) (p : string)   (* "Sending event '%d' with path '%s' succeed." *)
| MsgSendFailed                         (* "Sending event failed completely. Skipping..." *)
| MsgIgnoreAction (i : Z) (a : string)  (* "%d - Ignoring action type '%s'. Skipping ..." *)
| MsgRemoteChange (i : Z)               (* "%d - Filtering out event type 'RemoteChangeDetected'. Skipping..." *)
| MsgNonFile (i : Z)                    (* "%d - Filtering out non file type events. Skipping..." *)
| MsgLabel (i : Z) (l : string)         (* "%d - Label '%s' not in provided list '%s'. Skipping..." *)
| MsgNoMimetype (i : Z) (t : string)    (* "%d - Mimetype of '%s' not detectable. Skipping..." *)
| MsgNotVideo (i : Z) (t : string)      (* "%d - Path '%s' doesn't match video file type. Skipping..." *)
| MsgSample (i : Z) (p : string)        (* "%d - Path '%s' contains 'Sample'. Skipping..." *)
| MsgFoundLastId (i : Z) (f : string)   (* "Found last_id '%d' in file '%s'." *)
| MsgFetchExit                          (* "Error while fetching events from API. Exiting..." *)
| MsgEvent (e : event)                  (* the event itself *)
| MsgAlreadyParsed (i : Z)              (* "Event with ID '%d' already parsed. Skipping..." *)
| MsgWriteError.                        (* "Error while writing file: %s" *)

(** Everything the script does to the outside world, in the order it
    happens. *)
Inductive effect :=
| LogDebug (m : log_msg)                    (* logger.debug *)
| LogInfo (m : log_msg)                     (* logger.info *)
| HttpGet (url : string) (api_key : string) (* requests.get(url, headers) *)
| Sleep (secs : Z)                          (* time.sleep *)
| SendMessage (chat_id text : string)       (* bot.sendMessage *)
| FileWrite (content : string).             (* f.write on the cursor file *)

(** The cursor file at [args.id_file_location]. *)
Inductive file_state :=
| FileAbsent                     (* exists(...) is False *)
| FileUnreadable                 (* exists, but open/read raises OSError *)
| FileContent (s : string).      (* exists and f.read() returns s *)

Record world := {
  id_file : file_state;
  bot_calls : nat;               (* bot.sendMessage calls made so far *)
  trace : list effect
}.

(** The outside world as the script meets it during one run. *)
Inductive http_outcome :=
| RequestFails                                      (* requests.get raises RequestException *)
| Response (status_code : Z) (json : list event)    (* resp.status_code, resp.json() *)
| ResponseNull (status_code : Z)                    (* the body is the JSON value null *)
| ResponseUndecodable (status_code : Z).            (* the body is not JSON: resp.json() raises *)

Inductive write_outcome :=
| WriteDone      (* open, write and close succeed *)
| OpenFails      (* open(..., "w") raises: the file is left as it was *)
| WriteFails.    (* open truncated the file, then write or close raises *)

Record env := {
  bot_accepts : string -> bool;           (* Bot(token) returns; false = raises InvalidToken *)
  guess_type : string -> option string;   (* mimetypes.guess_type(path)[0] *)
  http_get : string -> http_outcome;      (* by url *)
  send_message : nat -> bool;             (* k-th bot.sendMessage call: true = delivered,
                                             false = raises TelegramError *)
  file_write : write_outcome
}.

(** ** Exceptions, [exit] and the world: the monad of the script *)

Inductive exn :=
| ValueError | OSError | RequestException | TelegramError | InvalidToken.

Inductive result (A : Type) :=
| Ok (a : A)            (* normal completion *)
| Raise (e : exn)       (* an exception travelling up *)
| Exit (code : Z).      (* exit(code) *)
Arguments Ok {A} a.
Arguments Raise {A} e.
Arguments Exit {A} code.

Definition M (A : Type) : Type := world -> result A * world.

Definition ret {A} (a : A) : M A := fun w => (Ok a, w).

Definition bind {A B} (m : M A) (k : A -> M B) : M B :=
  fun w =>
    match m w with
    | (Ok a, w') => k a w'
    | (Raise e, w') => (Raise e, w')
    | (Exit c, w') => (Exit c, w')
    end.

Definition raise {A} (e : exn) : M A := fun w => (Raise e, w).
Definition exit {A} (code : Z) : M A := fun w => (Exit code, w).

(** [try: m except <handled>: h]: an exception for which [h] has a branch is
    caught, every other one (and [exit]) passes through. *)
Definition try_except {A} (m : M A) (h : exn -> option (M A)) : M A :=
  fun w =>
    match m w with
    | (Raise e, w') =>
        match h e with
        | Some k => k w'
        | None => (Raise e, w')
        end
    | r => r
    end.

Declare Scope py_scope.
Delimit Scope py_scope with py.
Notation "x <- c ;; k" := (bind c (fun x => k))
  (at level 61, c at next level, right associativity) : py_scope.
Notation "c ;; k" := (bind c (fun _ => k))
  (at level 61, right associativity) : py_scope.
#[local] Open Scope py_scope.

Definition add_effect (x : effect) (w : world) : world :=
  {| id_file := id_file w; bot_calls := bot_calls w; trace := trace w ++ [x] |}.

Definition set_file (f : file_state) (w : world) : world :=
  {| id_file := f; bot_calls := bot_calls w; trace := trace w |}.

Definition count_call (w : world) : world :=
  {| id_file := id_file w; bot_calls := S (bot_calls w); trace := trace w |}.

Definition emit (x : effect) : M unit := fun w => (Ok tt, add_effect x w).

(** [time.sleep(secs)]: a negative length is a [ValueError].  This is
    [time.sleep] for lengths that fit the conversions to the C time types
    (see [max_sleep] below); beyond them the interpreter raises
    [OverflowError] or [OSError], which is not part of this definition. *)
Definition sleep (secs : Z) : M unit :=
  if secs <? 0 then raise ValueError else emit (Sleep secs).

Definition logger_info (m : log_msg) : M unit := emit (LogInfo m).
Definition logger_debug (m : log_msg) : M unit := emit (LogDebug m).

(** ** The script *)

(** [debug_msg(msg, args)] *)
Definition debug_msg (msg : log_msg) (a : args) : M unit :=
  if 0 <? verbose a then logger_debug msg else ret tt.

(** The body of an answer as [resp.json()] meets it. *)
Inductive resp_body :=
| JsonEvents (events : list event)   (* a JSON array of event objects *)
| JsonNull                           (* the JSON value null *)
| NotJson.                           (* anything that is not JSON *)

(** [requests.get(url, headers=headers)]: the answer, with its
    [status_code] and its body.  A body that is JSON but neither an array of
    event objects nor null is not part of the model. *)
Definition requests_get (en : env) (url api_key : string) : M (Z * resp_body) :=
  emit (HttpGet url api_key) ;;
  match http_get en url with
  | RequestFails => raise RequestException
  | Response code events => ret (code, JsonEvents events)
  | ResponseNull code => ret (code, JsonNull)
  | ResponseUndecodable code => ret (code, NotJson)
  end.

(** [resp.json()]: the decoded body, [None] for null.  On a body that is
    not JSON it raises [JSONDecodeError], which is a [RequestException]
    (requests 2.27 and later). *)
Definition resp_json (b : resp_body) : M (option (list event)) :=
  match b with
  | JsonEvents events => ret (Some events)
  | JsonNull => ret None
  | NotJson => raise RequestException
  end.

(** The url built at the head of [fetch_events]. *)
Definition events_url (a : args) (last_id : Z) : string :=
  (if ssl a then "https://" else "http://")
  ++ host a ++ "/rest/events/disk" ++ "?since=" ++ Py.str last_id
  ++ "&timeout=" ++ Py.str (timeout a).

(** [fetch_events(args, last_id)]: [None] is the transient-error value. *)
Definition fetch_events (a : args) (en : env) (last_id : Z)
  : M (option (list event)) :=
  let url := events_url a last_id in
  debug_msg (MsgUsedUrl url) a ;;
  try_except
    (resp <- requests_get en url (auth a) ;;
     if fst resp =? 200 then resp_json (snd resp)
     else
       logger_info MsgFetchError ;;
       sleep (timeout a) ;;
       ret None)
    (fun e =>
       match e with
       | RequestException =>
           Some (logger_info MsgFetchError ;;
                 sleep (timeout a) ;;
                 ret None)
       | _ => None
       end).

Definition newline : string := String "010" EmptyString.

(** [msg_text] of [send_event]: the template filled with the label and the
    last path segment. *)
Definition msg_text (e : event) : string :=
  "🕵️‍♂️  Meine Spürnase hat frische Ware entdeckt\! 👀" ++ newline ++ newline
  ++ "Label: `" ++ data_label (ev_data e) ++ "` \- File: `"
  ++ Py.basename (data_path (ev_data e)) ++ "`".

(** [bot.sendMessage(chat_id=..., text=..., parse_mode=...)] *)
Definition bot_sendMessage (en : env) (chat_id text : string) : M unit :=
  fun w =>
    let w' := count_call (add_effect (SendMessage chat_id text) w) in
    if send_message en (bot_calls w) then (Ok tt, w')
    else (Raise TelegramError, w').

(** The [for _ in range(n)] loop of [send_event] with its [continue],
    [break] and [else]: [n] is the number of iterations left. *)
Fixpoint send_loop (n : nat) (e : event) (a : args) (en : env) : M unit :=
  match n with
  | O => debug_msg MsgSendFailed a                    (* for ... else *)
  | S n' =>
      sent <- try_except
                (bot_sendMessage en (telegram_chat_id a) (msg_text e) ;;
                 ret true)
                (fun x =>
                   match x with
                   | TelegramError =>
                       Some (debug_msg MsgTelegramError a ;;
                             sleep (timeout a) ;;
                             ret false)              (* continue *)
                   | _ => None
                   end) ;;
      if sent : bool then
        logger_info (MsgSendSucceed (ev_id e) (data_path (ev_data e)))
                                                      (* break *)
      else send_loop n' e a en
  end.

(** [send_event(event, bot, args)] *)
Definition send_event (e : event) (a : args) (en : env) : M unit :=
  send_loop 3 e a en.

(** [parse_event(event, bot, args)]: returns [event["id"]] on every path. *)
Definition parse_event (e : event) (a : args) (en : env) : M Z :=
  let d := ev_data e in
  let filter_samples_then_send : M Z :=
    (* Filter Samples *)
    if Py.contains "sample" (data_path d)
       || Py.contains "Sample" (data_path d) then
      debug_msg (MsgSample (ev_id e) (data_path d)) a ;; ret (ev_id e)
    (* Send update *)
    else
      send_event e a en ;; ret (ev_id e) in
  (* Action Type *)
  if negb (data_action d =? "modified")%string then
    debug_msg (MsgIgnoreAction (ev_id e) (data_action d)) a ;; ret (ev_id e)
  (* Event Type *)
  else if negb (ev_type e =? "LocalChangeDetected")%string then
    debug_msg (MsgRemoteChange (ev_id e)) a ;; ret (ev_id e)
  (* File Type *)
  else if negb (data_type d =? "file")%string then
    debug_msg (MsgNonFile (ev_id e)) a ;; ret (ev_id e)
  (* Folder Label *)
  else if match label a with
          | Some ls => negb (Py.mem (data_label d) ls)
          | None => false
          end then
    debug_msg (MsgLabel (ev_id e) (data_label d)) a ;; ret (ev_id e)
  (* Movie Filter *)
  else if filter_movies a then
    match guess_type en (data_path d) with
    | None =>
        debug_msg (MsgNoMimetype (ev_id e) (data_type d)) a ;; ret (ev_id e)
    | Some mimetype =>
        if negb (Py.startswith mimetype "video") then
          debug_msg (MsgNotVideo (ev_id e) (data_type d)) a ;; ret (ev_id e)
        else filter_samples_then_send
    end
  else filter_samples_then_send.

(** The head of [main]: [last_id = 0], replaced by [int(f.read())] when the
    cursor file exists.  Nothing here is inside a [try]. *)
Definition load_last_id (a : args) : M Z :=
  fun w =>
    match id_file w with
    | FileAbsent => ret 0 w
    | FileUnreadable => raise OSError w
    | FileContent s =>
        match Py.int s with
        | None => raise ValueError w
        | Some last_id =>
            (debug_msg (MsgFoundLastId last_id (id_file_location a)) a ;;
             ret last_id) w
        end
    end.

(** One iteration of the [for event in events] loop of [main], from the
    current [last_id] to the next one. *)
Definition loop_body (a : args) (en : env) (last_id : Z) (e : event) : M Z :=
  debug_msg (MsgEvent e) a ;;
  if ev_id e <=? last_id then
    debug_msg (MsgAlreadyParsed (ev_id e)) a ;;
    ret last_id                                            (* continue *)
  else parse_event e a en.

(** The whole loop. *)
Fixpoint process_events (a : args) (en : env) (events : list event) (last_id : Z)
  : M Z :=
  match events with
  | [] => ret last_id
  | e :: rest =>
      last_id' <- loop_body a en last_id e ;;
      process_events a en rest last_id'
  end.

(** [open(..., "w")], [f.write(str(last_id))], [f.close()].  The text is
    short and buffered: it reaches the file in one piece when the file is
    flushed, so a write that fails after [open] leaves the truncated file
    empty. *)
Definition write_id_file (en : env) (content : string) : M unit :=
  fun w =>
    match file_write en with
    | WriteDone =>
        (Ok tt, set_file (FileContent content) (add_effect (FileWrite content) w))
    | OpenFails => (Raise OSError, w)
    | WriteFails =>
        (Raise OSError,
         set_file (FileContent EmptyString) (add_effect (FileWrite content) w))
    end.

(** The [try ... except BaseException] that ends [main]. *)
Definition save_last_id (a : args) (en : env) (last_id : Z) : M unit :=
  try_except (write_id_file en (Py.str last_id))
             (fun _ => Some (debug_msg MsgWriteError a)).

(** [Bot(token)]: the constructor checks the token and raises
    [InvalidToken] on one that it does not accept; it does nothing else to
    the world. *)
Definition Bot (en : env) (token : string) : M unit :=
  if bot_accepts en token then ret tt else raise InvalidToken.

(** [main(args)] in an invocation whose [Bot(args.telegram_bot_token)]
    (line 149) has returned the bot: line 147, then lines 151 to 181.
    [main_with_bot] below is the function with the construction in its
    place. *)
Definition main (a : args) (en : env) : M unit :=
  debug_msg MsgArguments a ;;
  last_id <- load_last_id a ;;
  events <- fetch_events a en last_id ;;
  match events with
  | None =>
      debug_msg MsgFetchExit a ;;
      exit 1
  | Some events =>
      last_id <- process_events a en events last_id ;;
      save_last_id a en last_id ;;
      exit 0
  end.

(** [main(args)], lines 144 to 181, the construction of the bot
    included. *)
Definition main_with_bot (a : args) (en : env) : M unit :=
  debug_msg MsgArguments a ;;
  Bot en (telegram_bot_token a) ;;
  last_id <- load_last_id a ;;
  events <- fetch_events a en last_id ;;
  match events with
  | None =>
      debug_msg MsgFetchExit a ;;
      exit 1
  | Some events =>
      last_id <- process_events a en events last_id ;;
      save_last_id a en last_id ;;
      exit 0
  end.

(** * Vocabulary of the statements *)

(** The greatest length, in seconds, that [time.sleep] takes wherever the
    script runs: it fits the millisecond counter of the Windows
    implementation and, with room to spare, the nanosecond counter of the
    others. *)
Definition max_sleep : Z := 4294967.

(** [time.sleep(secs)] sleeps and returns. *)
Definition sleep_accepts (secs : Z) : Prop := 0 <= secs <= max_sleep.

(** [time.sleep(secs)] raises [ValueError]: the length is negative. *)
Definition sleep_refuses (secs : Z) : Prop := - max_sleep <= secs < 0.

(** The answers after which [fetch_events] logs, sleeps and gives up: the
    request raised, the status is not 200, or the body of a 200 answer is
    not JSON. *)
Definition backs_off (o : http_outcome) : bool :=
  match o with
  | RequestFails => true
  | Response code _ => negb (code =? 200)
  | ResponseNull code => negb (code =? 200)
  | ResponseUndecodable _ => true
  end.

(** The cursor file is absent, unreadable, or holds a text on which the
    model of [int] is [int()]. *)
Definition file_in_model (f : file_state) : bool :=
  match f with
  | FileContent s => Py.in_model s
  | _ => true
  end.

(** [extend t n w]: the world [w] after the effects [t], [n] of them calls
    of [bot.sendMessage], and no write to the cursor file. *)
Definition extend (t : list effect) (n : nat) (w : world) : world :=
  {| id_file := id_file w; bot_calls := (bot_calls w + n)%nat; trace := trace w ++ t |}.

(** The debug line that [debug_msg] leaves, if any. *)
Definition dbg (a : args) (m : log_msg) : list effect :=
  if 0 <? verbose a then [LogDebug m] else [].

Definition is_send (x : effect) : bool :=
  match x with SendMessage _ _ => true | _ => false end.

(** The [bot.sendMessage] calls of a trace. *)
Definition sends (t : list effect) : list effect := filter is_send t.

(** [c] run in [w] ends with [r] after the effects [t], [n] of them bot calls. *)
Definition steps {A} (c : M A) (w : world) (r : result A) (t : list effect) (n : nat)
  : Prop :=
  c w = (r, extend t n w).

(** A delivery attempt that raised [TelegramError], with what follows it. *)
Definition failed_attempt (a : args) (e : event) : list effect :=
  [SendMessage (telegram_chat_id a) (msg_text e)]
  ++ dbg a MsgTelegramError ++ [Sleep (timeout a)].

(** A delivery attempt that went through. *)
Definition delivered_attempt (a : args) (e : event) : list effect :=
  [SendMessage (telegram_chat_id a) (msg_text e);
   LogInfo (MsgSendSucceed (ev_id e) (data_path (ev_data e)))].

(** What [fetch_events] does up to and including the request. *)
Definition request_effects (a : args) (last_id : Z) : list effect :=
  dbg a (MsgUsedUrl (events_url a last_id))
  ++ [HttpGet (events_url a last_id) (auth a)].


(** No character of [s] is one that [strip] removes. *)
Definition no_space (s : string) : Prop :=
  forall c, In c (list_ascii_of_string s) -> Py.is_space c = false.

(** [needle] occurs in [hay]. *)
Definition substring_of (needle hay : string) : Prop :=
  exists pre post, hay = pre ++ needle ++ post.

(** The six rules of the filter, named in the order in which the
    specification lists them. *)
Inductive rule :=
| RuleAction | RuleEventType | RuleFileType | RuleLabel | RuleMovies | RuleSample.

(** Specification side: what it means for an event to pass a rule, in the
    words of the specification (section 4.3). *)
Definition spec_rule_passes (a : args) (en : env) (e : event) (r : rule) : bool :=
  match r with
  | RuleAction => (data_action (ev_data e) =? "modified")%string
  | RuleEventType => (ev_type e =? "LocalChangeDetected")%string
  | RuleFileType => (data_type (ev_data e) =? "file")%string
  | RuleLabel =>
      match label a with
      | Some allowed => Py.mem (data_label (ev_data e)) allowed
      | None => true
      end
  | RuleMovies =>
      if filter_movies a then
        match guess_type en (data_path (ev_data e)) with
        | Some mimetype => Py.startswith mimetype "video"
        | None => false
        end
      else true
  | RuleSample =>
      negb (Py.contains "sample" (data_path (ev_data e))
            || Py.contains "Sample" (data_path (ev_data e)))
  end.

(** Specification side: the precedence. *)
Definition spec_rules : list rule :=
  [RuleAction; RuleEventType; RuleFileType; RuleLabel; RuleMovies; RuleSample].

(** Specification side: the first rule, in that order, that the event
    fails. *)
Definition spec_first_failing (a : args) (en : env) (e : event) : option rule :=
  find (fun r => negb (spec_rule_passes a en e r)) spec_rules.

(** The debug line with which [parse_event] leaves at each rule. *)
Definition skip_line (en : env) (e : event) (r : rule) : log_msg :=
  match r with
  | RuleAction => MsgIgnoreAction (ev_id e) (data_action (ev_data e))
  | RuleEventType => MsgRemoteChange (ev_id e)
  | RuleFileType => MsgNonFile (ev_id e)
  | RuleLabel => MsgLabel (ev_id e) (data_label (ev_data e))
  | RuleMovies =>
      match guess_type en (data_path (ev_data e)) with
      | None => MsgNoMimetype (ev_id e) (data_type (ev_data e))
      | Some _ => MsgNotVideo (ev_id e) (data_type (ev_data e))
      end
  | RuleSample => MsgSample (ev_id e) (data_path (ev_data e))
  end.

Definition is_write (x : effect) : bool :=
  match x with FileWrite _ => true | _ => false end.

(** The writes to the cursor file in a trace. *)
Definition writes (t : list effect) : list effect := filter is_write t.

(** [tame c]: whatever the world, [c] only appends effects that are not
    writes to the cursor file, leaves the file as it is, and does not call
    [exit]. *)
Definition tame {A} (c : M A) : Prop :=
  forall w, exists t n,
    snd (c w) = extend t n w
    /\ writes t = []
    /\ forall code, fst (c w) <> Exit code.

(** The cursor that the head of [main] finds in a cursor file, when it
    finds one. *)
Definition cursor_of_file (f : file_state) : option Z :=
  match f with
  | FileAbsent => Some 0
  | FileUnreadable => None
  | FileContent s => Py.int s
  end.

(** The debug line left by the head of [main]. *)
Definition found_line (a : args) (f : file_state) : list effect :=
  match f with
  | FileContent s =>
      match Py.int s with
      | Some n => dbg a (MsgFoundLastId n (id_file_location a))
      | None => []
      end
  | _ => []
  end.

(** The two debug lines of an iteration that skips its event. *)
Definition skipped_lines (a : args) (e : event) : list effect :=
  dbg a (MsgEvent e) ++ dbg a (MsgAlreadyParsed (ev_id e)).

(** The greatest of [last_id] and the ids of [events]. *)
Definition max_id (events : list event) (last_id : Z) : Z :=
  fold_left Z.max (map ev_id events) last_id.


(** The tail of [main], from the test of what [fetch_events] returned to
    the final [exit]. *)
Definition after_fetch (a : args) (en : env) (last_id : Z)
  (events : option (list event)) : M unit :=
  match events with
  | None =>
      debug_msg MsgFetchExit a ;;
      exit 1
  | Some events =>
      last_id <- process_events a en events last_id ;;
      save_last_id a en last_id ;;
      exit 0
  end.

Definition is_http (x : effect) : bool :=
  match x with HttpGet _ _ => true | _ => false end.

(** The requests of a trace. *)
Definition requests (t : list effect) : list effect := filter is_http t.

Definition is_debug (x : effect) : bool :=
  match x with LogDebug _ => true | _ => false end.

(** The debug lines of a trace. *)
Definition debug_lines (t : list effect) : list effect := filter is_debug t.

Definition no_debug (x : effect) : bool := negb (is_debug x).

Definition no_http (x : effect) : bool := negb (is_http x).

(** [confined P c]: whatever the world, every effect that [c] adds to the
    trace satisfies [P]. *)
Definition confined {A} (P : effect -> bool) (c : M A) : Prop :=
  forall w, exists t,
    trace (snd (c w)) = (trace w ++ t)%list /\ forallb P t = true.

(** The message that [send_event] hands to the bot for [e]. *)
Definition notification (a : args) (e : event) : effect :=
  SendMessage (telegram_chat_id a) (msg_text e).

(** The event passes all six rules of the filter. *)
Definition qualifies (a : args) (en : env) (e : event) : bool :=
  forallb (spec_rule_passes a en e) spec_rules.

(** The events that the loop of [main] does not skip: those whose id is
    above [last_id] and above the id of every event before them. *)
Fixpoint fresh (events : list event) (last_id : Z) : list event :=
  match events with
  | e :: rest =>
      if ev_id e <=? last_id then fresh rest last_id
      else e :: fresh rest (ev_id e)
  | [] => []
  end.

(** Every character of [s] is one that [strip] removes. *)
Definition all_space (s : string) : Prop :=
  forall c, In c (list_ascii_of_string s) -> Py.is_space c = true.

(** ** Sample data *)

Definition sample_args : args :=
  {| telegram_chat_id := "4711"; telegram_bot_token := "123456:ABC-DEF1234ghIkl-zyx57W2v1u123ew11";
     host := "localhost"; port := 8384; auth := "key"; timeout := 10;
     ssl := false; label := None; filter_movies := true;
     id_file_location := "./SyncthingSnitch.id"; verbose := 1 |}.

Definition sample_event (i : Z) (type path : string) : event :=
  {| ev_id := i; ev_type := type;
     ev_data := {| data_action := "modified"; data_type := "file";
                   data_label := "movies"; data_path := path |} |}.

Definition inception : event :=
  sample_event 6 "LocalChangeDetected" "/x/Inception.mkv".

Definition sample_guess_type (p : string) : option string :=
  if Py.contains ".mkv" p then Some "video/x-matroska"
  else if Py.contains ".txt" p then Some "text/plain"
  else None.

(** An event that fails the action rule, the event type rule, the file type
    rule and the sample rule. *)
Definition deleted_remote_dir : event :=
  {| ev_id := 7; ev_type := "RemoteChangeDetected";
     ev_data := {| data_action := "deleted"; data_type := "dir";
                   data_label := "movies"; data_path := "/x/sample" |} |}.

(** The check that [Bot] of python-telegram-bot 13 makes of an ASCII token:
    no whitespace, a colon, and before the first colon at least three
    characters, all digits. *)
Fixpoint before_colon (s : string) : option string :=
  match s with
  | String c r =>
      if Ascii.eqb c ":" then Some EmptyString
      else option_map (String c) (before_colon r)
  | EmptyString => None
  end.

Fixpoint all_chars (p : ascii -> bool) (s : string) : bool :=
  match s with
  | String c r => p c && all_chars p r
  | EmptyString => true
  end.

Definition well_formed_token (token : string) : bool :=
  all_chars (fun c => negb (Py.is_space c)
                      && negb ((28 <=? N_of_ascii c) && (N_of_ascii c <=? 31))%N) token
  && match before_colon token with
     | Some number =>
         all_chars (fun c => match Py.digit_of c with Some _ => true | None => false end) number
         && (3 <=? String.length number)%nat
     | None => false
     end.

(** A world in which the request answers [answer] and the bot delivers
    from its [k]-th call on. *)
Definition sample_env (answer : http_outcome) (k : nat) : env :=
  {| bot_accepts := well_formed_token; guess_type := sample_guess_type; http_get := fun _ => answer;
     send_message := fun i => (k <=? i)%nat; file_write := WriteDone |}.

Definition sample_world (f : file_state) : world :=
  {| id_file := f; bot_calls := 0; trace := [] |}.

Definition movie_sample : event :=
  sample_event 6 "LocalChangeDetected" "/x/Movie.Sample.mkv".

Definition movie_upper_sample : event :=
  sample_event 6 "LocalChangeDetected" "/x/Movie.SAMPLE.mkv".

Definition movie_mixed_sample : event :=
  sample_event 6 "LocalChangeDetected" "/x/Movie.sAmple.mkv".

Definition stale_event : event :=
  sample_event 3 "LocalChangeDetected" "/x/Old.mkv".

(** The world of a run on cursor file ["5"] when its fetch has returned. *)
Definition sample_fetched (en : env) : world :=
  snd (fetch_events sample_args en 5
         (snd (load_last_id sample_args
                 (snd (debug_msg MsgArguments sample_args
                         (sample_world (FileContent "5"))))))).

Definition two_events : list event :=
  [inception; sample_event 8 "RemoteChangeDetected" "/x/b.mkv"].

(** The arguments of a user who passed no [-v]. *)
Definition silent_args : args :=
  {| telegram_chat_id := "4711"; telegram_bot_token := "123456:ABC-DEF1234ghIkl-zyx57W2v1u123ew11";
     host := "localhost"; port := 8384; auth := "key"; timeout := 10;
     ssl := false; label := None; filter_movies := false;
     id_file_location := "./SyncthingSnitch.id"; verbose := 0 |}.

(** The arguments of a user who passed [-T -1]. *)
Definition hasty_args : args :=
  {| telegram_chat_id := "4711"; telegram_bot_token := "123456:ABC-DEF1234ghIkl-zyx57W2v1u123ew11";
     host := "localhost"; port := 8384; auth := "key"; timeout := -1;
     ssl := false; label := None; filter_movies := false;
     id_file_location := "./SyncthingSnitch.id"; verbose := 0 |}.

(** A world in which the request answers [answer], the bot delivers its
    first [k] messages and raises from then on, and the write ends as
    [wr]. *)
Definition flaky_env (answer : http_outcome) (k : nat) (wr : write_outcome) : env :=
  {| bot_accepts := well_formed_token; guess_type := sample_guess_type; http_get := fun _ => answer;
     send_message := fun i => (i <? k)%nat; file_write := wr |}.

Definition second_movie : event :=
  sample_event 8 "LocalChangeDetected" "/x/Tenet.mkv".

(** The arguments of a user who passed a token without its numeric part. *)
Definition malformed_token_args : args :=
  {| telegram_chat_id := "4711"; telegram_bot_token := "ABC-DEF1234ghIkl";
     host := "localhost"; port := 8384; auth := "key"; timeout := 10;
     ssl := false; label := None; filter_movies := true;
     id_file_location := "./SyncthingSnitch.id"; verbose := 1 |}.

(** * Lemmas *)

(** ** The built-ins on examples *)

Example str_42 : Py.str 42 = "42". Proof. reflexivity. Qed.
Example str_0 : Py.str 0 = "0". Proof. reflexivity. Qed.
Example str_neg : Py.str (-17) = "-17". Proof. reflexivity. Qed.
Example int_plain : Py.int "1207" = Some 1207. Proof. reflexivity. Qed.
Example int_newline : Py.int (" 12" ++ String "010" EmptyString) = Some 12.
Proof. reflexivity. Qed.
Example int_underscore : Py.int "1_000" = Some 1000. Proof. reflexivity. Qed.
Example int_bad_underscore : Py.int "1__0" = None. Proof. reflexivity. Qed.
Example int_trailing_underscore : Py.int "1_" = None. Proof. reflexivity. Qed.
Example int_empty : Py.int EmptyString = None. Proof. reflexivity. Qed.
Example int_letters : Py.int "abc" = None. Proof. reflexivity. Qed.
Example int_negative : Py.int "-5" = Some (-5). Proof. reflexivity. Qed.
Example int_sign_only : Py.int "-" = None. Proof. reflexivity. Qed.
Example basename_path : Py.basename "/x/Inception.mkv" = "Inception.mkv".
Proof. reflexivity. Qed.
Example basename_plain : Py.basename "a.mkv" = "a.mkv". Proof. reflexivity. Qed.
Example basename_slash : Py.basename "a/b/" = EmptyString. Proof. reflexivity. Qed.
Example contains_yes : Py.contains "Sample" "/x/Movie.Sample.mkv" = true.
Proof. reflexivity. Qed.
Example contains_no : Py.contains "Sample" "/x/Movie.SAMPLE.mkv" = false.
Proof. reflexivity. Qed.

(** ** Worlds reached from a world *)

Lemma extend_nil w : extend [] 0 w = w.
Proof.
  destruct w as [f c t]. unfold extend. simpl.
  now rewrite Nat.add_0_r, app_nil_r.
Qed.

Lemma extend_extend t1 n1 t2 n2 w :
  extend t2 n2 (extend t1 n1 w) = extend (t1 ++ t2) (n1 + n2) w.
Proof.
  unfold extend. simpl. now rewrite Nat.add_assoc, app_assoc.
Qed.

Lemma add_effect_extend x w : add_effect x w = extend [x] 0 w.
Proof. unfold add_effect, extend. now rewrite Nat.add_0_r. Qed.

Lemma steps_ret {A} (x : A) w : steps (ret x) w (Ok x) [] 0.
Proof. unfold steps, ret. now rewrite extend_nil. Qed.

Lemma steps_bind {A B} (c : M A) (k : A -> M B) w x t n r t' n' :
  steps c w (Ok x) t n ->
  steps (k x) (extend t n w) r t' n' ->
  steps (bind c k) w r (t ++ t') (n + n').
Proof.
  unfold steps, bind. intros -> ->. now rewrite extend_extend.
Qed.

Lemma steps_bind_raise {A B} (c : M A) (k : A -> M B) w e t n :
  steps c w (Raise e) t n -> steps (bind c k) w (Raise e) t n.
Proof. unfold steps, bind. now intros ->. Qed.

Lemma steps_emit x w : steps (emit x) w (Ok tt) [x] 0.
Proof. unfold steps, emit. now rewrite add_effect_extend. Qed.

Lemma steps_debug_msg m a w : steps (debug_msg m a) w (Ok tt) (dbg a m) 0.
Proof.
  unfold debug_msg, dbg, logger_debug.
  destruct (0 <? verbose a); [apply steps_emit | apply steps_ret].
Qed.

Lemma steps_sleep secs w : 0 <= secs -> steps (sleep secs) w (Ok tt) [Sleep secs] 0.
Proof.
  intros H. unfold sleep.
  destruct (Z.ltb_spec secs 0); [lia | apply steps_emit].
Qed.

Lemma steps_sleep_negative secs w : secs < 0 -> steps (sleep secs) w (Raise ValueError) [] 0.
Proof.
  intros H. unfold sleep.
  destruct (Z.ltb_spec secs 0); [| lia].
  unfold steps, raise. now rewrite extend_nil.
Qed.

Lemma sends_app t1 t2 : sends (t1 ++ t2) = (sends t1 ++ sends t2)%list.
Proof. apply filter_app. Qed.

Lemma sends_dbg a m : sends (dbg a m) = [].
Proof. unfold dbg. now destruct (0 <? verbose a). Qed.

Lemma steps_try_ok {A} (m : M A) h w x t n :
  steps m w (Ok x) t n -> steps (try_except m h) w (Ok x) t n.
Proof. unfold steps, try_except. now intros ->. Qed.

Lemma steps_try_caught {A} (m : M A) h w e k t n r t' n' :
  steps m w (Raise e) t n ->
  h e = Some k ->
  steps k (extend t n w) r t' n' ->
  steps (try_except m h) w r (t ++ t') (n + n').
Proof.
  unfold steps, try_except. intros -> -> ->. now rewrite extend_extend.
Qed.

(** ** The notifier *)

Section Notifier.

Variables (a : args) (en : env) (e : event).

Lemma steps_bot_sendMessage chat text w :
  steps (bot_sendMessage en chat text) w
        (if send_message en (bot_calls w) then Ok tt else Raise TelegramError)
        [SendMessage chat text] 1.
Proof.
  unfold steps, bot_sendMessage, count_call, add_effect, extend. simpl.
  rewrite Nat.add_1_r. now destruct (send_message en (bot_calls w)).
Qed.

Lemma send_loop_exhausted w :
  steps (send_loop 0 e a en) w (Ok tt) (dbg a MsgSendFailed) 0.
Proof. apply steps_debug_msg. Qed.

Lemma send_loop_delivered n w :
  send_message en (bot_calls w) = true ->
  steps (send_loop (S n) e a en) w (Ok tt) (delivered_attempt a e) 1.
Proof.
  intros Hs. cbn [send_loop].
  apply (steps_bind _ _ w true [SendMessage (telegram_chat_id a) (msg_text e)] 1 (Ok tt)
                    [LogInfo (MsgSendSucceed (ev_id e) (data_path (ev_data e)))] 0).
  - apply steps_try_ok.
    pose proof (steps_bot_sendMessage (telegram_chat_id a) (msg_text e) w) as Hb.
    rewrite Hs in Hb.
    apply (steps_bind _ _ w tt _ 1 (Ok true) [] 0 Hb). apply steps_ret.
  - apply steps_emit.
Qed.

Lemma send_loop_retry n w r t k :
  0 <= timeout a ->
  send_message en (bot_calls w) = false ->
  steps (send_loop n e a en) (extend (failed_attempt a e) 1 w) r t k ->
  steps (send_loop (S n) e a en) w r ((failed_attempt a e) ++ t) (1 + k).
Proof.
  intros Ht Hs Hrest. cbn [send_loop].
  apply (steps_bind _ _ w false (failed_attempt a e) 1 r t k); [| exact Hrest].
  pose proof (steps_bot_sendMessage (telegram_chat_id a) (msg_text e) w) as Hb.
  rewrite Hs in Hb.
  eapply (steps_try_caught _ _ w TelegramError _
            [SendMessage (telegram_chat_id a) (msg_text e)] 1 (Ok false)
            (dbg a MsgTelegramError ++ [Sleep (timeout a)]) 0).
  - apply steps_bind_raise. exact Hb.
  - reflexivity.
  - apply (steps_bind _ _ _ tt (dbg a MsgTelegramError) 0 (Ok false) [Sleep (timeout a)] 0).
    + apply steps_debug_msg.
    + apply (steps_bind _ _ _ tt [Sleep (timeout a)] 0 (Ok false) [] 0).
      * now apply steps_sleep.
      * apply steps_ret.
Qed.

(** With a timeout that [sleep] accepts, the loop always comes back
    normally, whatever the bot does. *)
Lemma send_loop_returns n w :
  0 <= timeout a ->
  exists t k, steps (send_loop n e a en) w (Ok tt) t k.
Proof.
  intros Ht. revert w. induction n as [|n IH]; intros w.
  - eexists _, _. apply send_loop_exhausted.
  - destruct (send_message en (bot_calls w)) eqn:Hs.
    + eexists _, _. now apply send_loop_delivered.
    + destruct (IH (extend (failed_attempt a e) 1 w)) as (t & k & Hk).
      eexists _, _. now apply send_loop_retry; eauto.
Qed.

Lemma send_event_returns w :
  0 <= timeout a ->
  exists t k, steps (send_event e a en) w (Ok tt) t k.
Proof. apply send_loop_returns. Qed.

(** Whatever its outcome (also an exception out of [sleep]), the loop never
    takes back a call to the bot, and makes one as soon as it iterates. *)
Lemma send_loop_calls n w :
  (bot_calls w <= bot_calls (snd (send_loop n e a en w)))%nat
  /\ (n <> O -> (bot_calls w < bot_calls (snd (send_loop n e a en w)))%nat).
Proof.
  revert w. induction n as [|n IH]; intros w.
  - split; [| congruence].
    cbn [send_loop]. unfold debug_msg, logger_debug, emit, ret.
    destruct (0 <? verbose a); simpl; lia.
  - assert (bot_calls w < bot_calls (snd (send_loop (S n) e a en w)))%nat; [| split; [lia | auto]].
    cbn [send_loop].
    unfold bind at 1. unfold try_except, bind at 1, bot_sendMessage.
    destruct (send_message en (bot_calls w)); simpl.
    + unfold logger_info, emit. simpl. lia.
    + unfold bind at 1. unfold debug_msg, logger_debug, emit, ret.
      unfold bind, sleep, raise, emit.
      destruct (0 <? verbose a), (timeout a <? 0); simpl; try lia.
      all: match goal with
           | |- context [send_loop _ _ _ _ ?w1] =>
               destruct (IH w1) as [Hle _]; simpl in Hle; lia
           end.
Qed.

(** [sleep] refuses a negative length: with such a timeout the first failed
    attempt ends the loop with [ValueError]. *)
Lemma send_loop_negative_timeout n w :
  timeout a < 0 ->
  send_message en (bot_calls w) = false ->
  fst (send_loop (S n) e a en w) = Raise ValueError.
Proof.
  intros Ht Hs. cbn [send_loop].
  unfold bind at 1. unfold try_except, bind at 1, bot_sendMessage.
  rewrite Hs. cbn. unfold bind at 1.
  rewrite (steps_debug_msg MsgTelegramError a). unfold bind at 1.
  now rewrite (steps_sleep_negative (timeout a) _ Ht).
Qed.

Lemma send_event_calls w :
  (bot_calls w < bot_calls (snd (send_event e a en w)))%nat.
Proof. apply (send_loop_calls 3 w). congruence. Qed.

End Notifier.

(** ** The event source client *)

Section EventSource.

Variables (a : args) (en : env).

Lemma steps_requests_get url key w :
  steps (requests_get en url key) w
        (match http_get en url with
         | RequestFails => Raise RequestException
         | Response code events => Ok (code, JsonEvents events)
         | ResponseNull code => Ok (code, JsonNull)
         | ResponseUndecodable code => Ok (code, NotJson)
         end)
        [HttpGet url key] 0.
Proof.
  unfold steps, requests_get, bind, emit. rewrite add_effect_extend.
  destruct (http_get en url); reflexivity.
Qed.


(** What [fetch_events] does once the answer is known: the part inside the
    [try] and the handler, after the request. *)
Lemma fetch_events_answer last_id w r t n :
  steps (try_except
           (resp <- requests_get en (events_url a last_id) (auth a) ;;
            if fst resp =? 200 then resp_json (snd resp)
            else
              logger_info MsgFetchError ;;
              sleep (timeout a) ;;
              ret None)
           (fun e =>
              match e with
              | RequestException =>
                  Some (logger_info MsgFetchError ;;
                        sleep (timeout a) ;;
                        ret None)
              | _ => None
              end))
        (extend (dbg a (MsgUsedUrl (events_url a last_id))) 0 w) r t n ->
  steps (fetch_events a en last_id) w r
        (dbg a (MsgUsedUrl (events_url a last_id)) ++ t) (0 + n).
Proof.
  intros H. unfold fetch_events.
  apply (steps_bind _ _ w tt _ 0 r t n); [apply steps_debug_msg | exact H].
Qed.


Lemma fetch_events_200 last_id w body :
  http_get en (events_url a last_id) = Response 200 body ->
  steps (fetch_events a en last_id) w (Ok (Some body)) (request_effects a last_id) 0.
Proof.
  intros Hg. unfold request_effects.
  apply (fetch_events_answer last_id w (Ok (Some body)) _ 0).
  apply steps_try_ok.
  pose proof (steps_requests_get (events_url a last_id) (auth a)
                (extend (dbg a (MsgUsedUrl (events_url a last_id))) 0 w)) as Hr.
  rewrite Hg in Hr.
  rewrite <- (app_nil_r [HttpGet (events_url a last_id) (auth a)]).
  apply (steps_bind _ _ _ _ _ 0 (Ok (Some body)) [] 0 Hr).
  cbn [fst snd]. rewrite Z.eqb_refl. apply steps_ret.
Qed.


End EventSource.

(** ** [int(str(n))] gives [n] back *)

Section IntOfStr.

Lemma digit_not_space c d : Py.digit_of c = Some d -> Py.is_space c = false.
Proof.
  unfold Py.digit_of, Py.is_space. cbv zeta.
  destruct ((48 <=? N_of_ascii c)%N && (N_of_ascii c <=? 57)%N) eqn:H; [| discriminate].
  intros _. apply andb_true_iff in H as [H1 H2].
  apply N.leb_le in H1, H2.
  apply orb_false_iff; split.
  - apply andb_false_iff. right. apply N.leb_gt. lia.
  - apply N.eqb_neq. lia.
Qed.

Lemma rstrip_no_space s : no_space s -> Py.rstrip s = s.
Proof.
  induction s as [|c r IH]; intros H; [reflexivity |].
  cbn [Py.rstrip]. rewrite IH.
  - destruct r; [| reflexivity].
    now rewrite (H c) by (left; reflexivity).
  - intros x Hx. apply H. now right.
Qed.

Lemma strip_no_space s : no_space s -> Py.strip s = s.
Proof.
  intros H. unfold Py.strip.
  destruct s as [|c r]; [reflexivity |].
  cbn [Py.lstrip]. rewrite (H c) by (left; reflexivity).
  now apply rstrip_no_space.
Qed.

Lemma uint_no_space d : no_space (NilEmpty.string_of_uint d).
Proof.
  induction d; intros c Hc; cbn in Hc; try contradiction;
    (destruct Hc as [<- | Hc]; [reflexivity | now apply IHd]).
Qed.

Ltac eval_digit :=
  match goal with
  | |- context [Py.digit_of ?c] =>
      let v := eval vm_compute in (Py.digit_of c) in
      change (Py.digit_of c) with v; cbv iota beta
  end.

Lemma digits_value_acc d p :
  Py.digits_value (NilEmpty.string_of_uint d) (Z.pos p) true
  = Some (Z.pos (Pos.of_uint_acc d p)).
Proof.
  revert p.
  induction d; intros p;
    cbn [NilEmpty.string_of_uint Py.digits_value Pos.of_uint_acc];
    try reflexivity;
    eval_digit; rewrite <- IHd; f_equal; lia.
Qed.

Lemma digits_value_uint d b :
  d <> Nil \/ b = true ->
  Py.digits_value (NilEmpty.string_of_uint d) 0 b = Some (Z.of_N (Pos.of_uint d)).
Proof.
  revert b.
  induction d; intros b Hb;
    cbn [NilEmpty.string_of_uint Py.digits_value Pos.of_uint];
    try (eval_digit; first [ apply IHd; now right | apply digits_value_acc ]).
  destruct Hb as [Hb | ->]; [congruence | reflexivity].
Qed.

Lemma int_of_digits d :
  d <> Nil ->
  Py.int (NilEmpty.string_of_uint d) = Some (Z.of_N (Pos.of_uint d)).
Proof.
  intros Hd. unfold Py.int.
  rewrite strip_no_space by apply uint_no_space.
  rewrite <- (digits_value_uint d false) by now left.
  destruct d; try congruence; reflexivity.
Qed.

Lemma int_str n : Py.int (Py.str n) = Some n.
Proof.
  destruct n as [|p|p]; [reflexivity | |].
  - unfold Py.str. cbn [Z.to_int NilZero.string_of_int].
    pose proof (Unsigned.to_uint_nonnil p) as Hn.
    replace (NilZero.string_of_uint (Pos.to_uint p))
      with (NilEmpty.string_of_uint (Pos.to_uint p))
      by (unfold NilZero.string_of_uint; destruct (Pos.to_uint p); congruence).
    rewrite int_of_digits by assumption.
    now rewrite Unsigned.of_to.
  - unfold Py.str. cbn [Z.to_int NilZero.string_of_int].
    pose proof (Unsigned.to_uint_nonnil p) as Hn.
    replace (NilZero.string_of_uint (Pos.to_uint p))
      with (NilEmpty.string_of_uint (Pos.to_uint p))
      by (unfold NilZero.string_of_uint; destruct (Pos.to_uint p); congruence).
    unfold Py.int. rewrite strip_no_space.
    + cbn [Ascii.eqb Bool.eqb]. rewrite digits_value_uint by now left.
      now rewrite Unsigned.of_to.
    + intros c [<- | Hc]; [reflexivity | now apply uint_no_space in Hc].
Qed.
End IntOfStr.

(** ** Substrings *)

Lemma prefix_spec p s : String.prefix p s = true <-> exists post, s = p ++ post.
Proof.
  revert s. induction p as [|c p IH]; intros s.
  - split; [intros _; now exists s | intros _; now destruct s].
  - destruct s as [|c' s]; cbn [String.prefix].
    + split; [discriminate | intros [post H]; discriminate].
    + destruct (Ascii.ascii_dec c c') as [<- | Hne].
      * rewrite IH. split; intros [post H]; exists post.
        -- cbn. now rewrite H.
        -- cbn in H. now injection H.
      * split; [discriminate |].
        intros [post H]. cbn in H. injection H as H1 _. congruence.
Qed.

Lemma contains_spec needle hay :
  Py.contains needle hay = true <-> substring_of needle hay.
Proof.
  unfold substring_of. induction hay as [|c hay IH]; cbn [Py.contains].
  - rewrite orb_false_r, prefix_spec. split.
    + intros [post H]. now exists EmptyString, post.
    + intros (pre & post & H). destruct pre; [now exists post |]. discriminate.
  - rewrite orb_true_iff, prefix_spec, IH. split.
    + intros [[post H] | (pre & post & H)].
      * now exists EmptyString, post.
      * exists (String c pre), post. cbn. now rewrite H.
    + intros (pre & post & H). destruct pre as [|c' pre].
      * left. now exists post.
      * right. cbn in H. injection H as _ H. now exists pre, post.
Qed.

(** ** The event filter *)

Section Filter.

Variables (a : args) (en : env).

Lemma skip_run (m : log_msg) (i : Z) w :
  (debug_msg m a ;; ret i) w = (Ok i, extend (dbg a m) 0 w).
Proof.
  pose proof (steps_bind _ (fun _ => ret i) w tt _ 0 (Ok i) [] 0
                (steps_debug_msg m a w) (steps_ret i _)) as H.
  unfold steps in H. now rewrite app_nil_r in H.
Qed.

(** [parse_event] leaves at the first rule that fails, and reaches
    [send_event] when none does. *)
Lemma parse_event_first_failing e w :
  parse_event e a en w =
  match spec_first_failing a en e with
  | Some r => (Ok (ev_id e), extend (dbg a (skip_line en e r)) 0 w)
  | None => (send_event e a en ;; ret (ev_id e)) w
  end.
Proof.
  unfold parse_event, spec_first_failing, spec_rules.
  cbn [find spec_rule_passes].
  destruct (data_action (ev_data e) =? "modified")%string; cbn [negb]; [| apply skip_run].
  destruct (ev_type e =? "LocalChangeDetected")%string; cbn [negb]; [| apply skip_run].
  destruct (data_type (ev_data e) =? "file")%string; cbn [negb]; [| apply skip_run].
  assert (Hmovies :
    (if filter_movies a
     then match guess_type en (data_path (ev_data e)) with
          | Some mimetype =>
              if negb (Py.startswith mimetype "video")
              then debug_msg (MsgNotVideo (ev_id e) (data_type (ev_data e))) a ;; ret (ev_id e)
              else if Py.contains "sample" (data_path (ev_data e))
                      || Py.contains "Sample" (data_path (ev_data e))
                   then debug_msg (MsgSample (ev_id e) (data_path (ev_data e))) a ;; ret (ev_id e)
                   else send_event e a en ;; ret (ev_id e)
          | None => debug_msg (MsgNoMimetype (ev_id e) (data_type (ev_data e))) a ;; ret (ev_id e)
          end
     else if Py.contains "sample" (data_path (ev_data e))
             || Py.contains "Sample" (data_path (ev_data e))
          then debug_msg (MsgSample (ev_id e) (data_path (ev_data e))) a ;; ret (ev_id e)
          else send_event e a en ;; ret (ev_id e)) w
    = match find (fun r => negb (spec_rule_passes a en e r)) [RuleMovies; RuleSample] with
      | Some r => (Ok (ev_id e), extend (dbg a (skip_line en e r)) 0 w)
      | None => (send_event e a en ;; ret (ev_id e)) w
      end).
  { cbn [find spec_rule_passes].
    destruct (filter_movies a).
    - destruct (guess_type en (data_path (ev_data e))) as [mimetype |] eqn:Hg;
        cbn [negb]; [| cbn [skip_line]; rewrite Hg; apply skip_run].
      destruct (Py.startswith mimetype "video"); cbn [negb];
        [| cbn [skip_line]; rewrite Hg; apply skip_run].
      destruct (Py.contains "sample" (data_path (ev_data e))
                || Py.contains "Sample" (data_path (ev_data e)));
        cbn [negb]; [apply skip_run | reflexivity].
    - cbn [negb].
      destruct (Py.contains "sample" (data_path (ev_data e))
                || Py.contains "Sample" (data_path (ev_data e)));
        cbn [negb]; [apply skip_run | reflexivity]. }
  destruct (label a) as [allowed |]; [| exact Hmovies].
  destruct (Py.mem (data_label (ev_data e)) allowed); cbn [negb];
    [exact Hmovies | apply skip_run].
Qed.

(** Past the first five rules, only the sample rule stands between the
    event and [send_event]. *)
Lemma parse_event_sample_rule e w :
  forallb (spec_rule_passes a en e)
          [RuleAction; RuleEventType; RuleFileType; RuleLabel; RuleMovies] = true ->
  (Py.contains "sample" (data_path (ev_data e))
   || Py.contains "Sample" (data_path (ev_data e)) = true
   /\ parse_event e a en w
      = (Ok (ev_id e),
         extend (dbg a (MsgSample (ev_id e) (data_path (ev_data e)))) 0 w))
  \/ (Py.contains "sample" (data_path (ev_data e))
      || Py.contains "Sample" (data_path (ev_data e)) = false
      /\ parse_event e a en w = (send_event e a en ;; ret (ev_id e)) w).
Proof.
  intros Hfive. rewrite parse_event_first_failing.
  unfold spec_first_failing, spec_rules.
  cbn [forallb] in Hfive. rewrite !andb_true_iff in Hfive.
  destruct Hfive as (H1 & H2 & H3 & H4 & H5 & _).
  cbn [find]. rewrite H1, H2, H3, H4, H5. cbn [negb spec_rule_passes].
  destruct (Py.contains "sample" (data_path (ev_data e))
            || Py.contains "Sample" (data_path (ev_data e)));
    cbn [negb skip_line]; [left | right]; now split.
Qed.

Lemma find_first_failing (P : rule -> bool) pre r post :
  forallb P pre = true -> P r = false ->
  find (fun x => negb (P x)) (pre ++ r :: post) = Some r.
Proof.
  intros Hpre Hr. induction pre as [|x pre IH]; cbn.
  - now rewrite Hr.
  - cbn in Hpre. apply andb_true_iff in Hpre as [Hx Hpre].
    rewrite Hx. cbn. now apply IH.
Qed.

Lemma find_none_passing (P : rule -> bool) l :
  forallb P l = true <-> find (fun x => negb (P x)) l = None.
Proof.
  induction l as [|x l IH]; cbn; [tauto |].
  destruct (P x); cbn; [exact IH | split; discriminate].
Qed.

End Filter.

(** ** Code that leaves the cursor file alone *)

Create HintDb tame.

Lemma tame_ret {A} (x : A) : tame (ret x).
Proof.
  intros w. exists [], O. cbn. rewrite extend_nil. repeat split. discriminate.
Qed.

Lemma tame_raise {A} (x : exn) : tame (@raise A x).
Proof.
  intros w. exists [], O. cbn. rewrite extend_nil. repeat split. discriminate.
Qed.

Lemma tame_emit x : is_write x = false -> tame (emit x).
Proof.
  intros Hx w. exists [x], O. cbn. rewrite add_effect_extend.
  repeat split; [| discriminate]. unfold writes. cbn. now rewrite Hx.
Qed.

Lemma writes_app t1 t2 : writes (t1 ++ t2) = (writes t1 ++ writes t2)%list.
Proof. apply filter_app. Qed.

Lemma tame_bind {A B} (c : M A) (k : A -> M B) :
  tame c -> (forall x, tame (k x)) -> tame (bind c k).
Proof.
  intros Hc Hk w. unfold bind.
  destruct (Hc w) as (t & n & Hw & Ht & Hx).
  destruct (c w) as [[x | x | code] w1]; cbn in Hw, Hx; subst w1.
  - destruct (Hk x (extend t n w)) as (t' & n' & Hw' & Ht' & Hx').
    exists (t ++ t')%list, (n + n')%nat.
    rewrite Hw', extend_extend, writes_app, Ht, Ht'. auto.
  - exists t, n. cbn. repeat split; [assumption | discriminate].
  - now destruct (Hx code).
Qed.

Lemma tame_try {A} (m : M A) (h : exn -> option (M A)) :
  tame m -> (forall x k, h x = Some k -> tame k) -> tame (try_except m h).
Proof.
  intros Hm Hh w. unfold try_except.
  destruct (Hm w) as (t & n & Hw & Ht & Hx).
  destruct (m w) as [[x | x | code] w1]; cbn in Hw, Hx; subst w1.
  - exists t, n. cbn. repeat split; [assumption | discriminate].
  - destruct (h x) as [k |] eqn:Hk.
    + destruct (Hh x k Hk (extend t n w)) as (t' & n' & Hw' & Ht' & Hx').
      exists (t ++ t')%list, (n + n')%nat.
      rewrite Hw', extend_extend, writes_app, Ht, Ht'. auto.
    + exists t, n. cbn. repeat split; [assumption | discriminate].
  - now destruct (Hx code).
Qed.

Lemma tame_debug_msg m a : tame (debug_msg m a).
Proof.
  unfold debug_msg, logger_debug.
  destruct (0 <? verbose a); [now apply tame_emit | apply tame_ret].
Qed.

Lemma tame_logger_info m : tame (logger_info m).
Proof. now apply tame_emit. Qed.

Lemma tame_sleep secs : tame (sleep secs).
Proof.
  unfold sleep. destruct (secs <? 0); [apply tame_raise | now apply tame_emit].
Qed.

#[local] Hint Resolve tame_ret tame_raise tame_bind tame_debug_msg
  tame_logger_info tame_sleep : tame.

Lemma tame_requests_get en url key : tame (requests_get en url key).
Proof.
  unfold requests_get. apply tame_bind; [now apply tame_emit |].
  intros _. destruct (http_get en url); auto with tame.
Qed.

Lemma tame_fetch_events a en last_id : tame (fetch_events a en last_id).
Proof.
  unfold fetch_events. apply tame_bind; [auto with tame |]. intros _.
  apply tame_try.
  - apply tame_bind; [apply tame_requests_get |].
    intros [code body]. cbn [fst snd]. destruct (code =? 200); [| auto 6 with tame].
    destruct body; cbn [resp_json]; auto with tame.
  - intros x k Hk. destruct x; try discriminate.
    injection Hk as <-. auto 6 with tame.
Qed.

Lemma tame_bot_sendMessage en chat text : tame (bot_sendMessage en chat text).
Proof.
  intros w. exists [SendMessage chat text], 1%nat.
  unfold bot_sendMessage, count_call, add_effect, extend. cbn.
  rewrite Nat.add_1_r.
  destruct (send_message en (bot_calls w)); cbn; repeat split; discriminate.
Qed.

Lemma tame_send_loop n e a en : tame (send_loop n e a en).
Proof.
  induction n as [|n IH]; cbn [send_loop]; [auto with tame |].
  apply tame_bind.
  - apply tame_try.
    + apply tame_bind; [apply tame_bot_sendMessage | auto with tame].
    + intros x k Hk. destruct x; try discriminate.
      injection Hk as <-. auto 6 with tame.
  - intros [|]; auto with tame.
Qed.

Lemma tame_parse_event e a en : tame (parse_event e a en).
Proof.
  intros w. rewrite parse_event_first_failing.
  destruct (spec_first_failing a en e) as [r |].
  - exists (dbg a (skip_line en e r)), O. cbn.
    repeat split; [| discriminate].
    unfold dbg, writes. now destruct (0 <? verbose a).
  - revert w. change (tame (send_event e a en ;; ret (ev_id e))).
    apply tame_bind; [apply tame_send_loop | auto with tame].
Qed.

Lemma tame_loop_body a en last_id e : tame (loop_body a en last_id e).
Proof.
  unfold loop_body. apply tame_bind; [auto with tame |]. intros _.
  destruct (ev_id e <=? last_id); [auto with tame | apply tame_parse_event].
Qed.

Lemma tame_process_events a en events last_id :
  tame (process_events a en events last_id).
Proof.
  revert last_id. induction events as [|e rest IH]; intros last_id;
    cbn [process_events]; [auto with tame |].
  apply tame_bind; [apply tame_loop_body | auto].
Qed.

Lemma tame_load_last_id a : tame (load_last_id a).
Proof.
  intros w. unfold load_last_id.
  destruct (id_file w) as [| | s].
  - apply tame_ret.
  - apply tame_raise.
  - destruct (Py.int s) as [n |]; [| apply tame_raise].
    revert w. change (tame (debug_msg (MsgFoundLastId n (id_file_location a)) a ;; ret n)).
    auto with tame.
Qed.

(** ** The run controller *)

Section RunController.

Variables (a : args) (en : env).

Lemma load_last_id_loads w P :
  cursor_of_file (id_file w) = Some P ->
  steps (load_last_id a) w (Ok P) (found_line a (id_file w)) 0.
Proof.
  unfold steps, load_last_id, cursor_of_file, found_line.
  destruct (id_file w) as [| | s] eqn:Hf.
  - intros [= <-]. apply steps_ret.
  - discriminate.
  - intros ->. apply skip_run.
Qed.

Lemma load_last_id_raises w :
  cursor_of_file (id_file w) = None ->
  load_last_id a w
  = (Raise (match id_file w with FileUnreadable => OSError | _ => ValueError end), w).
Proof.
  unfold load_last_id, cursor_of_file.
  destruct (id_file w) as [| | s]; [discriminate | reflexivity |].
  now intros ->.
Qed.

Lemma parse_event_value e w c w' :
  parse_event e a en w = (Ok c, w') -> c = ev_id e.
Proof.
  rewrite parse_event_first_failing.
  destruct (spec_first_failing a en e); [now intros [= <- _] |].
  unfold bind, ret. destruct (send_event e a en w) as [[[] | x | code] w1];
    now intros [= <- _].
Qed.

Lemma parse_event_returns e w :
  0 <= timeout a ->
  exists t n, steps (parse_event e a en) w (Ok (ev_id e)) t n.
Proof.
  intros Ht. unfold steps. rewrite parse_event_first_failing.
  destruct (spec_first_failing a en e) as [r |]; [now eexists _, _ |].
  destruct (send_event_returns a en e w Ht) as (t & n & Hs).
  exists (t ++ [])%list, (n + 0)%nat.
  apply (steps_bind _ _ w tt t n (Ok (ev_id e)) [] 0 Hs). apply steps_ret.
Qed.

Lemma loop_body_skips last_id e w :
  ev_id e <= last_id ->
  steps (loop_body a en last_id e) w (Ok last_id) (skipped_lines a e) 0.
Proof.
  intros Hle. unfold loop_body, skipped_lines.
  apply (steps_bind _ _ w tt _ 0 (Ok last_id) _ 0); [apply steps_debug_msg |].
  destruct (Z.leb_spec (ev_id e) last_id); [| lia].
  apply skip_run.
Qed.

Lemma loop_body_parses last_id e w :
  last_id < ev_id e ->
  loop_body a en last_id e w
  = parse_event e a en (extend (dbg a (MsgEvent e)) 0 w).
Proof.
  intros Hlt. unfold loop_body, bind.
  rewrite (steps_debug_msg (MsgEvent e) a w).
  destruct (Z.leb_spec (ev_id e) last_id); [lia | reflexivity].
Qed.

Lemma loop_body_value last_id e w c w' :
  loop_body a en last_id e w = (Ok c, w') ->
  (ev_id e <= last_id /\ c = last_id) \/ (last_id < ev_id e /\ c = ev_id e).
Proof.
  destruct (Z.le_gt_cases (ev_id e) last_id) as [Hle | Hlt].
  - rewrite (loop_body_skips last_id e w Hle). intros [= <- _]. now left.
  - rewrite (loop_body_parses last_id e w Hlt). intros H.
    apply parse_event_value in H. now right.
Qed.

Lemma loop_body_returns last_id e w :
  0 <= timeout a ->
  exists t n, steps (loop_body a en last_id e) w (Ok (Z.max last_id (ev_id e))) t n.
Proof.
  intros Ht. destruct (Z.le_gt_cases (ev_id e) last_id) as [Hle | Hlt].
  - rewrite Z.max_l by assumption. eexists _, _. now apply loop_body_skips.
  - rewrite Z.max_r by lia. unfold steps. rewrite loop_body_parses by assumption.
    destruct (parse_event_returns e (extend (dbg a (MsgEvent e)) 0 w) Ht) as (t & n & Hp).
    rewrite Hp, extend_extend. now eexists _, _.
Qed.

Lemma process_events_value events last_id w c w' :
  process_events a en events last_id w = (Ok c, w') ->
  c = max_id events last_id.
Proof.
  revert last_id w. induction events as [|e rest IH]; intros last_id w;
    cbn [process_events].
  - now intros [= <- _].
  - unfold bind at 1.
    destruct (loop_body a en last_id e w) as [[c1 | x | code] w1] eqn:Hb;
      [| discriminate | discriminate].
    intros H. apply IH in H. subst c. unfold max_id. cbn [map fold_left].
    apply loop_body_value in Hb as [[Hle ->] | [Hlt ->]];
      [now rewrite Z.max_l | now rewrite Z.max_r by lia].
Qed.

Lemma process_events_returns events last_id w :
  0 <= timeout a ->
  exists t n, steps (process_events a en events last_id) w
                    (Ok (max_id events last_id)) t n.
Proof.
  intros Ht. revert last_id w.
  induction events as [|e rest IH]; intros last_id w; cbn [process_events].
  - eexists _, _. apply steps_ret.
  - destruct (loop_body_returns last_id e w Ht) as (t & n & Hb).
    destruct (IH (Z.max last_id (ev_id e)) (extend t n w)) as (t' & n' & Hr).
    eexists _, _. apply (steps_bind _ _ w _ t n _ t' n' Hb). exact Hr.
Qed.

Lemma process_events_skips events last_id w :
  (forall e, In e events -> ev_id e <= last_id) ->
  steps (process_events a en events last_id) w (Ok last_id)
        (flat_map (skipped_lines a) events) 0.
Proof.
  revert w. induction events as [|e rest IH]; intros w Hall; cbn [process_events flat_map].
  - apply steps_ret.
  - apply (steps_bind _ _ w last_id _ 0 _ _ 0).
    + apply loop_body_skips. apply Hall. now left.
    + apply IH. intros x Hx. apply Hall. now right.
Qed.

Lemma max_id_ge_last events last_id : last_id <= max_id events last_id.
Proof.
  unfold max_id. revert last_id.
  induction events as [|e rest IH]; intros last_id; cbn [map fold_left]; [lia |].
  specialize (IH (Z.max last_id (ev_id e))). lia.
Qed.

Lemma max_id_ge_ids events last_id e :
  In e events -> ev_id e <= max_id events last_id.
Proof.
  unfold max_id. revert last_id.
  induction events as [|x rest IH]; intros last_id; cbn [map fold_left In]; [tauto |].
  intros [-> | Hin]; [| now apply IH].
  pose proof (max_id_ge_last rest (Z.max last_id (ev_id e))) as H.
  unfold max_id in H. lia.
Qed.

End RunController.




Section Runs.

Variables (a : args) (en : env).

Lemma debug_msg_ok m w : debug_msg m a w = (Ok tt, extend (dbg a m) 0 w).
Proof. apply steps_debug_msg. Qed.

Lemma load_last_id_inv w P w1 :
  load_last_id a w = (Ok P, w1) ->
  cursor_of_file (id_file w) = Some P
  /\ w1 = extend (found_line a (id_file w)) 0 w.
Proof.
  intros H. destruct (cursor_of_file (id_file w)) as [P' |] eqn:Hc.
  - rewrite (load_last_id_loads a w P' Hc) in H. now injection H as <- <-.
  - rewrite (load_last_id_raises a w Hc) in H. discriminate.
Qed.

(** The end of [main] never raises, whatever the write does. *)
Lemma save_last_id_ok last_id w :
  save_last_id a en last_id w
  = (Ok tt,
     match file_write en with
     | WriteDone =>
         set_file (FileContent (Py.str last_id))
                  (add_effect (FileWrite (Py.str last_id)) w)
     | OpenFails => extend (dbg a MsgWriteError) 0 w
     | WriteFails =>
         extend (dbg a MsgWriteError) 0
                (set_file (FileContent EmptyString)
                          (add_effect (FileWrite (Py.str last_id)) w))
     end).
Proof.
  unfold save_last_id, try_except, write_id_file.
  destruct (file_write en); [reflexivity | apply debug_msg_ok | apply debug_msg_ok].
Qed.

Lemma save_last_id_file last_id w :
  id_file (snd (save_last_id a en last_id w))
  = match file_write en with
    | WriteDone => FileContent (Py.str last_id)
    | OpenFails => id_file w
    | WriteFails => FileContent EmptyString
    end.
Proof. rewrite save_last_id_ok. now destruct (file_write en). Qed.

Lemma save_last_id_bot last_id w :
  bot_calls (snd (save_last_id a en last_id w)) = bot_calls w
  /\ sends (trace (snd (save_last_id a en last_id w))) = sends (trace w).
Proof.
  rewrite save_last_id_ok.
  destruct (file_write en); cbn; rewrite ?Nat.add_0_r, ?sends_app, ?sends_dbg;
    cbn; rewrite ?app_nil_r; auto.
Qed.

(** [main] on a run whose load and fetch steps are known. *)
Lemma main_fetch_none w P w1 w2 :
  load_last_id a (snd (debug_msg MsgArguments a w)) = (Ok P, w1) ->
  fetch_events a en P w1 = (Ok None, w2) ->
  main a en w = (Exit 1, extend (dbg a MsgFetchExit) 0 w2).
Proof.
  intros Hl Hf. unfold main. unfold bind at 1.
  rewrite debug_msg_ok in *. cbn [snd] in Hl.
  unfold bind at 1. rewrite Hl. unfold bind at 1. rewrite Hf.
  unfold bind. now rewrite debug_msg_ok.
Qed.

Lemma main_fetch_some w P w1 events w2 :
  load_last_id a (snd (debug_msg MsgArguments a w)) = (Ok P, w1) ->
  fetch_events a en P w1 = (Ok (Some events), w2) ->
  main a en w
  = match process_events a en events P w2 with
    | (Ok last_id, w3) => (Exit 0, snd (save_last_id a en last_id w3))
    | (Raise x, w3) => (Raise x, w3)
    | (Exit code, w3) => (Exit code, w3)
    end.
Proof.
  intros Hl Hf. unfold main. unfold bind at 1.
  rewrite debug_msg_ok in *. cbn [snd] in Hl.
  unfold bind at 1. rewrite Hl. unfold bind at 1. rewrite Hf.
  unfold bind at 1.
  destruct (process_events a en events P w2) as [[last_id | x | code] w3];
    try reflexivity.
  unfold bind, exit. now rewrite save_last_id_ok.
Qed.

(** A run that ends with status 0 went through the loop and the write. *)
Lemma main_exit_0_inv w P w1 events w2 w' :
  load_last_id a (snd (debug_msg MsgArguments a w)) = (Ok P, w1) ->
  fetch_events a en P w1 = (Ok (Some events), w2) ->
  main a en w = (Exit 0, w') ->
  exists w3,
    process_events a en events P w2 = (Ok (max_id events P), w3)
    /\ w' = snd (save_last_id a en (max_id events P) w3).
Proof.
  intros Hl Hf Hm. rewrite (main_fetch_some w P w1 events w2 Hl Hf) in Hm.
  destruct (process_events a en events P w2) as [[last_id | x | code] w3] eqn:Hp.
  - injection Hm as <-. pose proof (process_events_value _ _ _ _ _ _ _ Hp) as ->.
    now exists w3.
  - discriminate.
  - destruct (tame_process_events a en events P w2) as (_ & _ & _ & _ & Hx).
    rewrite Hp in Hx. now destruct (Hx code).
Qed.

(** [main_with_bot] is [main] behind the construction of the bot. *)
Lemma main_with_bot_accepted w :
  bot_accepts en (telegram_bot_token a) = true ->
  main_with_bot a en w = main a en w.
Proof. intros H. unfold main_with_bot, main, Bot. now rewrite H. Qed.

Lemma main_with_bot_rejected w :
  bot_accepts en (telegram_bot_token a) = false ->
  main_with_bot a en w = (Raise InvalidToken, extend (dbg a MsgArguments) 0 w).
Proof.
  intros H. unfold main_with_bot, Bot. rewrite H.
  unfold bind at 1. now rewrite debug_msg_ok.
Qed.

(** A load that raises ends [main] on the spot. *)
Lemma main_ends_at_load w x :
  load_last_id a (extend (dbg a MsgArguments) 0 w)
  = (Raise x, extend (dbg a MsgArguments) 0 w) ->
  main a en w = (Raise x, extend (dbg a MsgArguments) 0 w).
Proof.
  intros H. unfold main. unfold bind at 1. rewrite debug_msg_ok.
  unfold bind at 1. now rewrite H.
Qed.

End Runs.

(** * The properties of the specification *)

(** ** Retry bound *)




(** ** Fetch error signalling *)




(** ** Cursor advancement *)




(** ** The cursor inside the loop *)



(** ** Cursor load *)

(** C3, as the code has it, for a cursor file that is absent, unreadable,
    or holds ASCII text of at most 4300 characters.  An absent file gives
    the cursor 0.  A file that holds a decimal integer literal gives that
    integer.  An unreadable file, and a file whose content is not an integer
    literal, is not turned into 0: the [OSError] or [ValueError] is not
    caught, and once the bot is constructed it leaves [main] with nothing
    done but the debug line of the arguments: no request is sent, nothing
    is notified and the cursor file is not written. *)
Theorem cursor_load (a : args) (en : env) (w : world) :
  file_in_model (id_file w) = true ->
  match id_file w with
  | FileAbsent => load_last_id a w = (Ok 0, w)
  | FileContent s =>
      match Py.int s with
      | Some n =>
          load_last_id a w
          = (Ok n, extend (dbg a (MsgFoundLastId n (id_file_location a))) 0 w)
      | None =>
          load_last_id a w = (Raise ValueError, w)
          /\ (bot_accepts en (telegram_bot_token a) = true ->
              main_with_bot a en w
              = (Raise ValueError, extend (dbg a MsgArguments) 0 w))
      end
  | FileUnreadable =>
      load_last_id a w = (Raise OSError, w)
      /\ (bot_accepts en (telegram_bot_token a) = true ->
          main_with_bot a en w
          = (Raise OSError, extend (dbg a MsgArguments) 0 w))
  end.
Proof.
  intros _.
  destruct (id_file w) as [| | s] eqn:Hf.
  - unfold load_last_id. now rewrite Hf.
  - split; [unfold load_last_id; now rewrite Hf |].
    intros Hb. rewrite (main_with_bot_accepted a en w Hb).
    apply main_ends_at_load. unfold load_last_id. cbn [id_file extend]. now rewrite Hf.
  - destruct (Py.int s) as [n |] eqn:Hs.
    + pose proof (load_last_id_loads a w n) as H.
      unfold cursor_of_file, found_line in H. rewrite Hf, Hs in H. now apply H.
    + split; [unfold load_last_id; now rewrite Hf, Hs |].
      intros Hb. rewrite (main_with_bot_accepted a en w Hb).
      apply main_ends_at_load. unfold load_last_id. cbn [id_file extend].
      now rewrite Hf, Hs.
Qed.

(** A cursor file that holds ["12 events"]: the load raises, and the run
    ends there, after the debug line of the arguments and before the
    request. *)
Lemma cursor_load_witness :
  file_in_model (FileContent "12 events") = true
  /\ bot_accepts (sample_env (Response 200 [inception]) 0)
                 (telegram_bot_token sample_args) = true
  /\ main_with_bot sample_args (sample_env (Response 200 [inception]) 0)
                   (sample_world (FileContent "12 events"))
     = (Raise ValueError,
        extend [LogDebug MsgArguments] 0 (sample_world (FileContent "12 events"))).
Proof.
  split; [reflexivity |]. split; [reflexivity |].
  exact (proj2 (cursor_load sample_args (sample_env (Response 200 [inception]) 0)
                  (sample_world (FileContent "12 events")) eq_refl) eq_refl).
Defined.

(** C3, as the specification has it, fails: with a cursor file that holds
    ["abc"] and a token that the bot accepts, the load step does not return
    0, it raises [ValueError], and [main] ends with it. *)
Lemma cursor_load_raises :
  load_last_id sample_args (sample_world (FileContent "abc"))
  = (Raise ValueError, sample_world (FileContent "abc"))
  /\ fst (load_last_id sample_args (sample_world (FileContent "abc"))) <> Ok 0
  /\ bot_accepts (sample_env (Response 200 []) 0) (telegram_bot_token sample_args) = true
  /\ fst (main_with_bot sample_args (sample_env (Response 200 []) 0)
                        (sample_world (FileContent "abc")))
     = Raise ValueError.
Proof. repeat split. discriminate. Qed.

(** ** Fetch failure *)

(** C4. In a run whose load step gave the cursor [P] and whose fetch
    signalled [None], [main] ends with [exit(1)]; the cursor file is what
    it was before the run and the run made no write to it. *)
Theorem fetch_failure_keeps_cursor
  (a : args) (en : env) (w : world) (P : Z) (w1 w2 : world) :
  load_last_id a (snd (debug_msg MsgArguments a w)) = (Ok P, w1) ->
  fetch_events a en P w1 = (Ok None, w2) ->
  exists w',
    main a en w = (Exit 1, w')
    /\ id_file w' = id_file w
    /\ writes (trace w') = writes (trace w).
Proof.
  intros Hl Hf. exists (extend (dbg a MsgFetchExit) 0 w2).
  split; [now apply (main_fetch_none a en w P w1 w2) |].
  destruct (tame_debug_msg MsgArguments a w) as (t0 & n0 & H0 & Hw0 & _).
  destruct (tame_load_last_id a (snd (debug_msg MsgArguments a w)))
    as (t1 & n1 & H1 & Hw1 & _).
  destruct (tame_fetch_events a en P w1) as (t2 & n2 & H2 & Hw2 & _).
  rewrite Hl in H1. rewrite Hf in H2. cbn [snd] in H1, H2.
  rewrite H2, H1, H0. cbn [id_file trace extend].
  split; [reflexivity |].
  rewrite !writes_app, Hw0, Hw1, Hw2.
  unfold dbg. destruct (0 <? verbose a); cbn; now rewrite !app_nil_r.
Qed.

(** The request fails with cursor file ["5"]: exit status 1, file still ["5"]. *)
Lemma fetch_failure_keeps_cursor_witness :
  exists w',
    main sample_args (sample_env RequestFails 0) (sample_world (FileContent "5"))
    = (Exit 1, w')
    /\ id_file w' = FileContent "5"
    /\ writes (trace w') = [].
Proof.
  apply (fetch_failure_keeps_cursor sample_args (sample_env RequestFails 0)
           (sample_world (FileContent "5")) 5 _ _ eq_refl eq_refl).
Defined.

(** ** Filter precedence *)

(** C5. [parse_event] applies the six rules in the order of the
    specification.  When the event passes the rules before [r] and fails
    [r], the function returns at [r] with the debug line of [r], whatever
    the rules after [r] would say, and the bot is not called; when the event
    passes all six, [send_event] is called.  So the bot is called exactly
    when all rules pass. *)
Theorem filter_precedence (a : args) (en : env) (e : event) (w : world) :
  (forall before r after,
      spec_rules = (before ++ r :: after)%list ->
      forallb (spec_rule_passes a en e) before = true ->
      spec_rule_passes a en e r = false ->
      parse_event e a en w
      = (Ok (ev_id e), extend (dbg a (skip_line en e r)) 0 w))
  /\ (forallb (spec_rule_passes a en e) spec_rules = true ->
      parse_event e a en w = (send_event e a en ;; ret (ev_id e)) w)
  /\ (forallb (spec_rule_passes a en e) spec_rules = true
      <-> (bot_calls w < bot_calls (snd (parse_event e a en w)))%nat).
Proof.
  pose proof (parse_event_first_failing a en e w) as Hp.
  repeat split.
  - intros before r after Hrules Hbefore Hr.
    unfold spec_first_failing in Hp.
    now rewrite Hrules, (find_first_failing _ before r after Hbefore Hr) in Hp.
  - intros Hall. apply find_none_passing in Hall.
    unfold spec_first_failing in Hp. now rewrite Hall in Hp.
  - intros Hall. apply find_none_passing in Hall.
    unfold spec_first_failing in Hp. rewrite Hall in Hp. rewrite Hp.
    pose proof (send_event_calls a en e w) as Hc.
    unfold bind, ret. destruct (send_event e a en w) as [[[] | x | code] w1]; exact Hc.
  - intros Hcalls. apply find_none_passing.
    unfold spec_first_failing in Hp.
    destruct (find _ spec_rules) as [r |]; [| reflexivity].
    rewrite Hp in Hcalls. cbn in Hcalls. lia.
Qed.

(** An event that fails rule 1 (action) and rule 2 (event type) alike
    leaves at rule 1: the debug line is the one of the action rule. *)
Lemma filter_precedence_witness :
  parse_event deleted_remote_dir sample_args (sample_env RequestFails 0)
              (sample_world FileAbsent)
  = (Ok 7, extend [LogDebug (MsgIgnoreAction 7 "deleted")] 0 (sample_world FileAbsent)).
Proof.
  apply (proj1 (filter_precedence sample_args (sample_env RequestFails 0)
                  deleted_remote_dir (sample_world FileAbsent))
           [] RuleAction
           [RuleEventType; RuleFileType; RuleLabel; RuleMovies; RuleSample]);
    reflexivity.
Defined.

(** ** Sample exclusion *)

(** C9. For an event that passes the first five rules, [parse_event] returns
    at the sample rule, without calling the bot and with the event's id,
    exactly when the path has the substring ["sample"] or the substring
    ["Sample"]; otherwise [send_event] is called. *)
Theorem sample_exclusion (a : args) (en : env) (e : event) (w : world) :
  forallb (spec_rule_passes a en e)
          [RuleAction; RuleEventType; RuleFileType; RuleLabel; RuleMovies] = true ->
  ((substring_of "sample" (data_path (ev_data e))
    \/ substring_of "Sample" (data_path (ev_data e)))
   <-> parse_event e a en w
       = (Ok (ev_id e),
          extend (dbg a (MsgSample (ev_id e) (data_path (ev_data e)))) 0 w))
  /\ (~ (substring_of "sample" (data_path (ev_data e))
         \/ substring_of "Sample" (data_path (ev_data e)))
      <-> (bot_calls w < bot_calls (snd (parse_event e a en w)))%nat).
Proof.
  intros Hfive.
  destruct (parse_event_sample_rule a en e w Hfive) as [[Hs Hp] | [Hs Hp]].
  - assert (Hsub : substring_of "sample" (data_path (ev_data e))
                   \/ substring_of "Sample" (data_path (ev_data e))).
    { apply orb_true_iff in Hs. now rewrite <- !contains_spec. }
    split; split; try tauto.
    rewrite Hp. cbn. lia.
  - assert (Hsub : ~ (substring_of "sample" (data_path (ev_data e))
                      \/ substring_of "Sample" (data_path (ev_data e)))).
    { rewrite <- !contains_spec, <- orb_true_iff, Hs. discriminate. }
    assert (Hcalls : (bot_calls w < bot_calls (snd (parse_event e a en w)))%nat).
    { rewrite Hp. pose proof (send_event_calls a en e w) as Hc.
      unfold bind, ret. destruct (send_event e a en w) as [[[] | x | code] w1]; exact Hc. }
    split; split; try tauto.
    intros H. rewrite H in Hcalls. cbn in Hcalls. lia.
Qed.

(** ["/x/Movie.Sample.mkv"] is skipped at the sample rule;
    ["/x/Movie.SAMPLE.mkv"] reaches the bot. *)
Lemma sample_exclusion_witness :
  parse_event movie_sample sample_args (sample_env RequestFails 0)
              (sample_world FileAbsent)
  = (Ok 6, extend [LogDebug (MsgSample 6 "/x/Movie.Sample.mkv")] 0
                  (sample_world FileAbsent))
  /\ (bot_calls (sample_world FileAbsent)
      < bot_calls (snd (parse_event movie_upper_sample sample_args
                                    (sample_env RequestFails 0)
                                    (sample_world FileAbsent))))%nat.
Proof.
  split.
  - apply (proj1 (sample_exclusion sample_args (sample_env RequestFails 0)
                    movie_sample (sample_world FileAbsent) eq_refl)).
    right. now exists "/x/Movie.", ".mkv".
  - apply (proj2 (sample_exclusion sample_args (sample_env RequestFails 0)
                    movie_upper_sample (sample_world FileAbsent) eq_refl)).
    rewrite <- !contains_spec. cbn. intros [H | H]; discriminate.
Defined.

(** The other casings are not excluded: both events are delivered at the
    first attempt. *)
Example upper_sample_is_delivered :
  parse_event movie_upper_sample sample_args (sample_env RequestFails 0)
              (sample_world FileAbsent)
  = (Ok 6, extend (delivered_attempt sample_args movie_upper_sample) 1
                  (sample_world FileAbsent)).
Proof. reflexivity. Qed.

Example mixed_sample_is_delivered :
  parse_event movie_mixed_sample sample_args (sample_env RequestFails 0)
              (sample_world FileAbsent)
  = (Ok 6, extend (delivered_attempt sample_args movie_mixed_sample) 1
                  (sample_world FileAbsent)).
Proof. reflexivity. Qed.

(** ** Monotonic cursor *)

Lemma fetch_events_bot a en last_id w :
  bot_calls (snd (fetch_events a en last_id w)) = bot_calls w
  /\ sends (trace (snd (fetch_events a en last_id w))) = sends (trace w).
Proof.
  unfold fetch_events, bind, try_except, requests_get, resp_json, bind, debug_msg,
    logger_debug, logger_info, sleep, emit, ret, raise.
  destruct (0 <? verbose a),
    (http_get en (events_url a last_id)) as [| code body | code | code];
    cbn [fst snd]; try destruct (code =? 200); destruct (timeout a <? 0);
    cbn; rewrite ?sends_app; cbn; rewrite ?app_nil_r; auto.
Qed.

Lemma sends_found_line a f : sends (found_line a f) = [].
Proof.
  unfold found_line. destruct f as [| | s]; try reflexivity.
  destruct (Py.int s); [apply sends_dbg | reflexivity].
Qed.

Lemma sends_skipped_lines a events : sends (flat_map (skipped_lines a) events) = [].
Proof.
  induction events as [|e rest IH]; [reflexivity |].
  cbn [flat_map]. rewrite sends_app, IH. unfold skipped_lines.
  now rewrite sends_app, !sends_dbg.
Qed.

(** The head of a run, up to the fetch, leaves file and bot alone. *)
Lemma run_head_frame a en w P w1 r w2 :
  load_last_id a (snd (debug_msg MsgArguments a w)) = (Ok P, w1) ->
  fetch_events a en P w1 = (r, w2) ->
  cursor_of_file (id_file w) = Some P
  /\ id_file w2 = id_file w
  /\ bot_calls w2 = bot_calls w
  /\ sends (trace w2) = sends (trace w).
Proof.
  intros Hl Hf. rewrite debug_msg_ok in Hl. cbn [snd] in Hl.
  apply load_last_id_inv in Hl as [Hc Hw1]. cbn [id_file extend] in Hc.
  destruct (fetch_events_bot a en P w1) as [Hb Hs].
  destruct (tame_fetch_events a en P w1) as (t & n & Hw & _).
  rewrite Hf in Hb, Hs, Hw. cbn [snd] in Hb, Hs, Hw.
  assert (H1 : id_file w1 = id_file w /\ bot_calls w1 = bot_calls w
               /\ sends (trace w1) = sends (trace w)).
  { subst w1. cbn [id_file bot_calls trace extend]. repeat split; [lia |].
    now rewrite !sends_app, sends_dbg, sends_found_line, !app_nil_r. }
  destruct H1 as (Hi1 & Hb1 & Hs1).
  repeat split; [assumption | | congruence | congruence].
  rewrite Hw. cbn [id_file extend]. exact Hi1.
Qed.



(** ** Idempotent replay *)

(** A run in which every fetched event lies at or below the loaded cursor
    ends with status 0 and never calls the bot. *)
Lemma main_nothing_new a en w C w1 events w2 :
  load_last_id a (snd (debug_msg MsgArguments a w)) = (Ok C, w1) ->
  fetch_events a en C w1 = (Ok (Some events), w2) ->
  (forall e, In e events -> ev_id e <= C) ->
  exists w',
    main a en w = (Exit 0, w')
    /\ bot_calls w' = bot_calls w
    /\ sends (trace w') = sends (trace w).
Proof.
  intros Hl Hf Hall.
  destruct (run_head_frame a en w C w1 _ w2 Hl Hf) as (_ & _ & Hb & Hs).
  pose proof (process_events_skips a en events C w2 Hall) as Hp.
  unfold steps in Hp.
  eexists. split.
  - rewrite (main_fetch_some a en w C w1 events w2 Hl Hf), Hp. reflexivity.
  - destruct (save_last_id_bot a en C (extend (flat_map (skipped_lines a) events) 0 w2))
      as [Hb' Hs'].
    rewrite Hb', Hs'. cbn [bot_calls trace extend].
    rewrite sends_app, sends_skipped_lines, app_nil_r, Nat.add_0_r. auto.
Qed.

(** C1. Take a run that loads the cursor [C] and fetches [events].
    (1) An event whose id is at or below [C] is skipped wherever it stands
    in the sequence: its iteration leaves two debug lines, does not enter
    [parse_event], does not call the bot and keeps the cursor.
    (2) When all of [events] lie at or below [C], the run ends with status 0
    without a single call to the bot.
    (3) When the run ended with status 0 and wrote its cursor, a second run
    that fetches the same [events] ends with status 0 without a single call
    to the bot. *)
Theorem idempotent_replay
  (a : args) (en : env) (w : world) (C : Z) (w1 : world)
  (events : list event) (w2 : world) :
  load_last_id a (snd (debug_msg MsgArguments a w)) = (Ok C, w1) ->
  fetch_events a en C w1 = (Ok (Some events), w2) ->
  (forall before e after c wk,
      events = (before ++ e :: after)%list ->
      ev_id e <= C ->
      process_events a en before C w2 = (Ok c, wk) ->
      loop_body a en c e wk = (Ok c, extend (skipped_lines a e) 0 wk))
  /\ ((forall e, In e events -> ev_id e <= C) ->
      exists w',
        main a en w = (Exit 0, w')
        /\ bot_calls w' = bot_calls w
        /\ sends (trace w') = sends (trace w))
  /\ (forall w',
        main a en w = (Exit 0, w') ->
        file_write en = WriteDone ->
        forall en',
          (forall c, http_get en' (events_url a c) = Response 200 events) ->
          exists w'',
            main a en' w' = (Exit 0, w'')
            /\ bot_calls w'' = bot_calls w'
            /\ sends (trace w'') = sends (trace w')).
Proof.
  intros Hl Hf. split; [| split].
  - intros before e after c wk _ Hle Hp.
    apply process_events_value in Hp. subst c.
    apply loop_body_skips. pose proof (max_id_ge_last before C). lia.
  - now apply (main_nothing_new a en w C w1 events w2).
  - intros w' Hm Hdone en' Hget.
    destruct (main_exit_0_inv a en w C w1 events w2 w' Hl Hf Hm) as (w3 & _ & Hw').
    assert (Hfile := save_last_id_file a en (max_id events C) w3).
    rewrite <- Hw', Hdone in Hfile.
    set (c := max_id events C) in *.
    assert (Hl' : load_last_id a (snd (debug_msg MsgArguments a w'))
                  = (Ok c, extend (found_line a (id_file w')) 0
                                  (extend (dbg a MsgArguments) 0 w'))).
    { rewrite debug_msg_ok. cbn [snd].
      apply (load_last_id_loads a (extend (dbg a MsgArguments) 0 w') c).
      cbn [id_file extend]. rewrite Hfile. cbn. apply int_str. }
    eapply (main_nothing_new a en' w' c _ events _ Hl').
    + apply fetch_events_200. apply Hget.
    + intros e He. now apply max_id_ge_ids.
Qed.

(** Cursor file ["5"], events 6 (delivered) and 8 (a remote change): the
    first run sends one message and writes ["8"]; run again on the same
    answer, nothing is sent.  And with the events 3 and 6, the event 3 is
    skipped with its two debug lines. *)
Lemma idempotent_replay_witness :
  (exists w'',
     main sample_args (sample_env (Response 200 two_events) 0)
          (snd (main sample_args (sample_env (Response 200 two_events) 0)
                     (sample_world (FileContent "5"))))
     = (Exit 0, w'')
     /\ bot_calls w''
        = bot_calls (snd (main sample_args (sample_env (Response 200 two_events) 0)
                               (sample_world (FileContent "5"))))
     /\ sends (trace w'')
        = sends (trace (snd (main sample_args (sample_env (Response 200 two_events) 0)
                                  (sample_world (FileContent "5"))))))
  /\ loop_body sample_args (sample_env (Response 200 [stale_event; inception]) 0) 5
               stale_event
               (sample_fetched (sample_env (Response 200 [stale_event; inception]) 0))
     = (Ok 5,
        extend [LogDebug (MsgEvent stale_event); LogDebug (MsgAlreadyParsed 3)] 0
               (sample_fetched (sample_env (Response 200 [stale_event; inception]) 0))).
Proof.
  split.
  - apply (proj2 (proj2 (idempotent_replay sample_args
                           (sample_env (Response 200 two_events) 0)
                           (sample_world (FileContent "5")) 5 _ two_events _
                           eq_refl eq_refl))
             _ eq_refl eq_refl (sample_env (Response 200 two_events) 0)).
    reflexivity.
  - apply (proj1 (idempotent_replay sample_args
                    (sample_env (Response 200 [stale_event; inception]) 0)
                    (sample_world (FileContent "5")) 5 _ [stale_event; inception] _
                    eq_refl eq_refl) [] stale_event [inception] 5 _ eq_refl);
      [cbn; lia | reflexivity].
Defined.

Example first_run_sends_once :
  sends (trace (snd (main sample_args (sample_env (Response 200 two_events) 0)
                          (sample_world (FileContent "5")))))
  = [SendMessage "4711" (msg_text inception)].
Proof. reflexivity. Qed.

(** Scenario 4 of the specification: cursor 10 and one event with id 7. *)
Example stale_event_is_skipped :
  main sample_args (sample_env (Response 200 [sample_event 7 "LocalChangeDetected" "/x/c.mkv"]) 0)
       (sample_world (FileContent "10"))
  = (Exit 0,
     {| id_file := FileContent "10"; bot_calls := 0;
        trace := [LogDebug MsgArguments;
                  LogDebug (MsgFoundLastId 10 "./SyncthingSnitch.id");
                  LogDebug (MsgUsedUrl "http://localhost/rest/events/disk?since=10&timeout=10");
                  HttpGet "http://localhost/rest/events/disk?since=10&timeout=10" "key";
                  LogDebug (MsgEvent (sample_event 7 "LocalChangeDetected" "/x/c.mkv"));
                  LogDebug (MsgAlreadyParsed 7);
                  FileWrite "10"] |}).
Proof. reflexivity. Qed.

(** * Further properties of the script *)

(** ** Effects of one kind *)

Lemma confined_ret {A} P (x : A) : confined P (ret x).
Proof. intros w. exists []. cbn. now rewrite app_nil_r. Qed.

Lemma confined_raise {A} P (x : exn) : confined P (@raise A x).
Proof. intros w. exists []. cbn. now rewrite app_nil_r. Qed.

Lemma confined_exit {A} P (code : Z) : confined P (@exit A code).
Proof. intros w. exists []. cbn. now rewrite app_nil_r. Qed.

Lemma confined_emit P x : P x = true -> confined P (emit x).
Proof. intros Hx w. exists [x]. cbn. now rewrite Hx. Qed.

Lemma confined_bind {A B} P (c : M A) (k : A -> M B) :
  confined P c -> (forall x, confined P (k x)) -> confined P (bind c k).
Proof.
  intros Hc Hk w. unfold bind.
  destruct (Hc w) as (t & Hw & Ht).
  destruct (c w) as [[x | x | code] w1]; cbn [snd] in Hw.
  - destruct (Hk x w1) as (t' & Hw' & Ht').
    exists (t ++ t')%list. rewrite Hw', Hw, app_assoc, forallb_app, Ht, Ht'. auto.
  - now exists t.
  - now exists t.
Qed.

Lemma confined_try {A} P (m : M A) (h : exn -> option (M A)) :
  confined P m -> (forall x k, h x = Some k -> confined P k) ->
  confined P (try_except m h).
Proof.
  intros Hm Hh w. unfold try_except.
  destruct (Hm w) as (t & Hw & Ht).
  destruct (m w) as [[x | x | code] w1]; cbn [snd] in Hw.
  - now exists t.
  - destruct (h x) as [k |] eqn:Hk; [| now exists t].
    destruct (Hh x k Hk w1) as (t' & Hw' & Ht').
    exists (t ++ t')%list. rewrite Hw', Hw, app_assoc, forallb_app, Ht, Ht'. auto.
  - now exists t.
Qed.

Lemma confined_sleep P secs : P (Sleep secs) = true -> confined P (sleep secs).
Proof.
  intros H. unfold sleep.
  destruct (secs <? 0); [apply confined_raise | now apply confined_emit].
Qed.

(** A property of the added effects that [filter] sees. *)
Lemma confined_filter {A} P (c : M A) w :
  confined (fun x => negb (P x)) c ->
  filter P (trace (snd (c w))) = filter P (trace w).
Proof.
  intros Hc. destruct (Hc w) as (t & -> & Ht).
  rewrite filter_app.
  assert (Hnil : filter P t = []).
  { clear -Ht. induction t as [|x t IH]; [reflexivity |].
    cbn in *. apply andb_true_iff in Ht as [Hx Ht].
    destruct (P x); [discriminate | auto]. }
  now rewrite Hnil, app_nil_r.
Qed.

(** [main] is its head followed by [after_fetch]. *)
Lemma main_unfold a en :
  main a en
  = (debug_msg MsgArguments a ;;
     last_id <- load_last_id a ;;
     events <- fetch_events a en last_id ;;
     after_fetch a en last_id events).
Proof. reflexivity. Qed.

(** ** What the parts of a run add to the trace *)

Section Confined.

Variables (a : args) (en : env) (P : effect -> bool).
Hypothesis Hdebug : forall m, 0 < verbose a -> P (LogDebug m) = true.
Hypothesis Hinfo : forall m, P (LogInfo m) = true.
Hypothesis Hsleep : forall secs, P (Sleep secs) = true.
Hypothesis Hsend : forall chat text, P (SendMessage chat text) = true.
Hypothesis Hwrite : forall content, P (FileWrite content) = true.

Lemma confined_debug_msg m : confined P (debug_msg m a).
Proof.
  unfold debug_msg. destruct (Z.ltb_spec 0 (verbose a)); [| apply confined_ret].
  apply confined_emit. now apply Hdebug.
Qed.

Lemma confined_skip m (i : Z) : confined P (debug_msg m a ;; ret i).
Proof.
  apply confined_bind; [apply confined_debug_msg |]. intros _. apply confined_ret.
Qed.

Lemma confined_bot_sendMessage chat text : confined P (bot_sendMessage en chat text).
Proof.
  intros w. exists [SendMessage chat text].
  unfold bot_sendMessage. destruct (send_message en (bot_calls w)); cbn;
    now rewrite Hsend.
Qed.

Lemma confined_send_loop n e : confined P (send_loop n e a en).
Proof.
  induction n as [|n IH]; cbn [send_loop]; [apply confined_debug_msg |].
  apply confined_bind.
  - apply confined_try.
    + apply confined_bind; [apply confined_bot_sendMessage |].
      intros _. apply confined_ret.
    + intros x k Hk. destruct x; try discriminate. injection Hk as <-.
      apply confined_bind; [apply confined_debug_msg |]. intros _.
      apply confined_bind; [now apply confined_sleep |]. intros _. apply confined_ret.
  - intros [|]; [now apply confined_emit | exact IH].
Qed.

Lemma confined_parse_event e : confined P (parse_event e a en).
Proof.
  assert (Hgo : confined P (send_event e a en ;; ret (ev_id e))).
  { apply confined_bind; [apply confined_send_loop |]. intros _. apply confined_ret. }
  unfold parse_event.
  destruct (negb _); [apply confined_skip |].
  destruct (negb _); [apply confined_skip |].
  destruct (negb _); [apply confined_skip |].
  destruct (match label a with Some ls => _ | None => false end); [apply confined_skip |].
  destruct (filter_movies a).
  - destruct (guess_type en _); [| apply confined_skip].
    destruct (negb _); [apply confined_skip |].
    destruct (_ || _); [apply confined_skip | apply Hgo].
  - destruct (_ || _); [apply confined_skip | apply Hgo].
Qed.

Lemma confined_process_events events last_id :
  confined P (process_events a en events last_id).
Proof.
  revert last_id. induction events as [|e rest IH]; intros last_id;
    cbn [process_events]; [apply confined_ret |].
  apply confined_bind; [| auto].
  unfold loop_body. apply confined_bind; [apply confined_debug_msg |]. intros _.
  destruct (ev_id e <=? last_id); [apply confined_skip | apply confined_parse_event].
Qed.

Lemma confined_load_last_id : confined P (load_last_id a).
Proof.
  intros w. unfold load_last_id.
  destruct (id_file w) as [| | s]; [apply confined_ret | apply confined_raise |].
  destruct (Py.int s) as [n |]; [| apply confined_raise].
  revert w.
  change (confined P (debug_msg (MsgFoundLastId n (id_file_location a)) a ;; ret n)).
  apply confined_skip.
Qed.

Lemma confined_save_last_id last_id : confined P (save_last_id a en last_id).
Proof.
  unfold save_last_id. apply confined_try.
  - intros w. unfold write_id_file. destruct (file_write en); cbn.
    + exists [FileWrite (Py.str last_id)]. cbn. now rewrite Hwrite.
    + exists []. now rewrite app_nil_r.
    + exists [FileWrite (Py.str last_id)]. cbn. now rewrite Hwrite.
  - intros x k [= <-]. apply confined_debug_msg.
Qed.

Lemma confined_after_fetch last_id events :
  confined P (after_fetch a en last_id events).
Proof.
  destruct events as [events |]; cbn [after_fetch].
  - apply confined_bind; [apply confined_process_events |]. intros c.
    apply confined_bind; [apply confined_save_last_id |]. intros _. apply confined_exit.
  - apply confined_bind; [apply confined_debug_msg |]. intros _. apply confined_exit.
Qed.

Hypothesis Hhttp : forall url key, P (HttpGet url key) = true.

Lemma confined_fetch_events last_id : confined P (fetch_events a en last_id).
Proof.
  assert (Hback : confined P (logger_info MsgFetchError ;; sleep (timeout a) ;;
                              ret (@None (list event)))).
  { apply confined_bind; [now apply confined_emit |]. intros _.
    apply confined_bind; [now apply confined_sleep |]. intros _. apply confined_ret. }
  unfold fetch_events. apply confined_bind; [apply confined_debug_msg |]. intros _.
  apply confined_try.
  - apply confined_bind.
    + unfold requests_get. apply confined_bind; [now apply confined_emit |].
      intros _. destruct (http_get en _); [apply confined_raise | apply confined_ret ..].
    + intros [code body]. cbn [fst snd].
      destruct (code =? 200); [| apply Hback].
      destruct body; cbn [resp_json]; [apply confined_ret .. | apply confined_raise].
  - intros x k Hk. destruct x; try discriminate. injection Hk as <-. apply Hback.
Qed.

Lemma confined_main : confined P (main a en).
Proof.
  rewrite main_unfold.
  apply confined_bind; [apply confined_debug_msg |]. intros _.
  apply confined_bind; [apply confined_load_last_id |]. intros last_id.
  apply confined_bind; [apply confined_fetch_events |]. intros events.
  apply confined_after_fetch.
Qed.

End Confined.

(** ** The shape of a run *)

Lemma writes_dbg a m : writes (dbg a m) = [].
Proof. unfold dbg. now destruct (0 <? verbose a). Qed.

(** Every run of [main] ends in one of three ways: with an exception, with
    [exit(1)], or with [exit(0)] right after the write; up to that point the
    cursor file is not written. *)
Lemma main_shape a en w :
  exists t n,
    writes t = []
    /\ match main a en w with
       | (Ok _, _) => False
       | (Raise _, w') => w' = extend t n w
       | (Exit code, w') =>
           (code = 1 /\ w' = extend t n w)
           \/ (code = 0
               /\ exists c, w' = snd (save_last_id a en c (extend t n w)))
       end.
Proof.
  rewrite main_unfold. unfold bind at 1. rewrite debug_msg_ok.
  set (w0 := extend (dbg a MsgArguments) 0 w).
  unfold bind at 1.
  destruct (tame_load_last_id a w0) as (t1 & n1 & H1 & Hw1 & Hx1).
  destruct (load_last_id a w0) as [[P | x | code] w1]; cbn [fst snd] in H1, Hx1;
    [| | now destruct (Hx1 code)].
  2:{ subst w1 w0. rewrite extend_extend. eexists _, _. split; [| reflexivity].
      now rewrite writes_app, writes_dbg, Hw1. }
  unfold bind at 1.
  destruct (tame_fetch_events a en P w1) as (t2 & n2 & H2 & Hw2 & Hx2).
  destruct (fetch_events a en P w1) as [[events | x | code] w2]; cbn [fst snd] in H2, Hx2;
    [| | now destruct (Hx2 code)].
  2:{ subst w2 w1 w0. rewrite !extend_extend. eexists _, _. split; [| reflexivity].
      now rewrite !writes_app, writes_dbg, Hw1, Hw2. }
  destruct events as [events |]; cbn [after_fetch].
  - unfold bind at 1.
    destruct (tame_process_events a en events P w2) as (t3 & n3 & H3 & Hw3 & Hx3).
    destruct (process_events a en events P w2) as [[c | x | code] w3];
      cbn [fst snd] in H3, Hx3; [| | now destruct (Hx3 code)].
    + subst w3 w2 w1 w0. rewrite !extend_extend.
      unfold bind, exit. rewrite save_last_id_ok. cbn [fst snd].
      eexists _, _.
      split; [| right; split; [reflexivity |]; exists c; now rewrite save_last_id_ok].
      now rewrite !writes_app, writes_dbg, Hw1, Hw2, Hw3.
    + subst w3 w2 w1 w0. rewrite !extend_extend. eexists _, _. split; [| reflexivity].
      now rewrite !writes_app, writes_dbg, Hw1, Hw2, Hw3.
  - unfold bind, exit. rewrite debug_msg_ok.
    subst w2 w1 w0. rewrite !extend_extend. eexists _, _.
    split; [| left; split; reflexivity].
    now rewrite !writes_app, !writes_dbg, Hw1, Hw2.
Qed.

(** X1. A run that does not end with status 0 leaves the cursor file as it
    was and makes no write to it: the cursor is written only at the very end
    of a run that went through all its events. *)
Theorem failed_run_keeps_cursor
  (a : args) (en : env) (w : world) (r : result unit) (w' : world) :
  main a en w = (r, w') ->
  r <> Exit 0 ->
  id_file w' = id_file w /\ writes (trace w') = writes (trace w).
Proof.
  intros Hm Hr.
  destruct (main_shape a en w) as (t & n & Ht & H). rewrite Hm in H.
  assert (Hw : w' = extend t n w).
  { destruct r as [[] | x | code]; [contradiction | exact H |].
    destruct H as [[_ H] | [-> _]]; [exact H | now destruct Hr]. }
  subst w'. cbn. now rewrite writes_app, Ht, app_nil_r.
Qed.

(** Events 6 and 8 both qualify, the bot delivers the first message and
    raises on the second, and the timeout is -1: [sleep] raises
    [ValueError] in the middle of the loop, and the file still holds
    ["5"] although event 6 was notified. *)
Lemma failed_run_keeps_cursor_witness :
  fst (main hasty_args (flaky_env (Response 200 [inception; second_movie]) 1 WriteDone)
            (sample_world (FileContent "5")))
  = Raise ValueError
  /\ id_file (snd (main hasty_args
                        (flaky_env (Response 200 [inception; second_movie]) 1 WriteDone)
                        (sample_world (FileContent "5"))))
     = FileContent "5".
Proof.
  split; [reflexivity |].
  apply (failed_run_keeps_cursor hasty_args
           (flaky_env (Response 200 [inception; second_movie]) 1 WriteDone)
           (sample_world (FileContent "5")) (Raise ValueError) _ eq_refl).
  discriminate.
Defined.

Lemma main_load_raises a en w :
  cursor_of_file (id_file w) = None ->
  main a en w
  = (Raise (match id_file w with FileUnreadable => OSError | _ => ValueError end),
     extend (dbg a MsgArguments) 0 w).
Proof.
  intros Hc. rewrite main_unfold. unfold bind at 1. rewrite debug_msg_ok.
  unfold bind at 1.
  now rewrite (load_last_id_raises a (extend (dbg a MsgArguments) 0 w) Hc).
Qed.

Lemma main_fetch_raises a en w P w1 x w2 :
  load_last_id a (snd (debug_msg MsgArguments a w)) = (Ok P, w1) ->
  fetch_events a en P w1 = (Raise x, w2) ->
  main a en w = (Raise x, w2).
Proof.
  intros Hl Hf. rewrite main_unfold. unfold bind at 1.
  rewrite debug_msg_ok in *. cbn [snd] in Hl.
  unfold bind at 1. rewrite Hl. unfold bind at 1. now rewrite Hf.
Qed.

(** ** Exit status *)

(** The head of a run whose cursor file loads. *)
Lemma load_after_arguments a w P :
  cursor_of_file (id_file w) = Some P ->
  load_last_id a (snd (debug_msg MsgArguments a w))
  = (Ok P, extend (found_line a (id_file w)) 0 (snd (debug_msg MsgArguments a w))).
Proof.
  intros Hc.
  rewrite (load_last_id_loads a (snd (debug_msg MsgArguments a w)) P);
    rewrite debug_msg_ok; [reflexivity | exact Hc].
Qed.



(** ** What the write leaves behind *)



(** ** The cursor file written and read back *)



(** ** One poll per run *)

Lemma requests_dbg a m : requests (dbg a m) = [].
Proof. unfold dbg. now destruct (0 <? verbose a). Qed.

Lemma requests_found_line a f : requests (found_line a f) = [].
Proof.
  unfold found_line. destruct f as [| | s]; try reflexivity.
  destruct (Py.int s); [apply requests_dbg | reflexivity].
Qed.

(** Whatever the answer and whatever [sleep] does, [fetch_events] makes
    exactly one request. *)
Lemma fetch_events_requests a en last_id w :
  requests (trace (snd (fetch_events a en last_id w)))
  = (requests (trace w) ++ [HttpGet (events_url a last_id) (auth a)])%list.
Proof.
  unfold fetch_events, bind, try_except, requests_get, resp_json, bind, debug_msg,
    logger_debug, logger_info, sleep, emit, ret, raise, requests.
  destruct (0 <? verbose a),
    (http_get en (events_url a last_id)) as [| code body | code | code];
    cbn [fst snd]; try destruct (code =? 200); destruct (timeout a <? 0);
    cbn; rewrite ?filter_app; cbn; rewrite ?app_nil_r, <- ?app_assoc; reflexivity.
Qed.

(** The requests of a run once the bot is constructed. *)
Lemma main_requests a en w :
  requests (trace (snd (main a en w)))
  = (requests (trace w)
     ++ match cursor_of_file (id_file w) with
        | Some P => [HttpGet (events_url a P) (auth a)]
        | None => []
        end)%list.
Proof.
  destruct (cursor_of_file (id_file w)) as [P |] eqn:Hc.
  - rewrite main_unfold. unfold bind at 1. rewrite debug_msg_ok.
    unfold bind at 1.
    rewrite (load_last_id_loads a (extend (dbg a MsgArguments) 0 w) P Hc).
    rewrite extend_extend. cbn [id_file extend].
    set (w1 := extend _ _ w).
    assert (H1 : requests (trace w1) = requests (trace w)).
    { subst w1. cbn. unfold requests. rewrite !filter_app.
      fold (requests (dbg a MsgArguments)). fold (requests (found_line a (id_file w))).
      now rewrite requests_dbg, requests_found_line, !app_nil_r. }
    unfold bind.
    pose proof (fetch_events_requests a en P w1) as H2.
    destruct (fetch_events a en P w1) as [[events | x | code] w2]; cbn [snd] in H2 |- *;
      [| now rewrite H2, H1 ..].
    unfold requests at 1.
    rewrite (confined_filter is_http (after_fetch a en P events) w2).
    + fold (requests (trace w2)). now rewrite H2, H1.
    + now apply confined_after_fetch.
  - rewrite (main_load_raises a en w Hc). cbn. unfold requests.
    rewrite filter_app. fold (requests (dbg a MsgArguments)).
    now rewrite requests_dbg.
Qed.

(** X5. On a cursor file that is absent, unreadable, or holds ASCII text
    of at most 4300 characters, a run makes exactly one request to the
    event source when the bot accepts the token and the cursor file loads,
    with the API key and with the loaded cursor as [since], and none at
    all when the bot refuses the token or the load raises. *)
Theorem one_request_per_run (a : args) (en : env) (w : world) :
  file_in_model (id_file w) = true ->
  requests (trace (snd (main_with_bot a en w)))
  = (requests (trace w)
     ++ if bot_accepts en (telegram_bot_token a) then
          match cursor_of_file (id_file w) with
          | Some P => [HttpGet (events_url a P) (auth a)]
          | None => []
          end
        else [])%list.
Proof.
  intros _. destruct (bot_accepts en (telegram_bot_token a)) eqn:Hb.
  - rewrite (main_with_bot_accepted a en w Hb). apply main_requests.
  - rewrite (main_with_bot_rejected a en w Hb). cbn. unfold requests.
    rewrite filter_app. fold (requests (dbg a MsgArguments)).
    now rewrite requests_dbg.
Qed.

(** Cursor file ["5"], two events, one of them notified: one request. *)
Lemma one_request_per_run_witness :
  file_in_model (FileContent "5") = true
  /\ requests (trace (snd (main_with_bot sample_args
                             (sample_env (Response 200 two_events) 0)
                             (sample_world (FileContent "5")))))
     = [HttpGet "http://localhost/rest/events/disk?since=5&timeout=10" "key"].
Proof.
  split; [reflexivity |].
  exact (one_request_per_run sample_args (sample_env (Response 200 two_events) 0)
           (sample_world (FileContent "5")) eq_refl).
Defined.

(** ** Verbosity *)

(** X6. Without [-v] a run logs nothing at debug level, however it ends. *)
Theorem no_debug_output (a : args) (en : env) (w : world) :
  verbose a <= 0 ->
  debug_lines (trace (snd (main a en w))) = debug_lines (trace w).
Proof.
  intros Hv. unfold debug_lines. apply confined_filter.
  apply confined_main; try reflexivity. intros m H. lia.
Qed.

(** One event notified, cursor written: no debug line in the trace. *)
Lemma no_debug_output_witness :
  debug_lines (trace (snd (main silent_args (sample_env (Response 200 two_events) 0)
                                (sample_world (FileContent "5")))))
  = [].
Proof.
  apply (no_debug_output silent_args (sample_env (Response 200 two_events) 0)
           (sample_world (FileContent "5"))).
  cbn. lia.
Defined.

(** ** A negative timeout *)

Lemma fetch_events_negative_timeout a en last_id w :
  timeout a < 0 ->
  backs_off (http_get en (events_url a last_id)) = true ->
  fst (fetch_events a en last_id w) = Raise ValueError.
Proof.
  intros Ht Hg.
  unfold fetch_events, bind, try_except, requests_get, resp_json, bind, debug_msg,
    logger_debug, logger_info, sleep, emit, ret, raise.
  destruct (Z.ltb_spec (timeout a) 0); [| lia].
  destruct (0 <? verbose a),
    (http_get en (events_url a last_id)) as [| code body | code | code];
    cbn [backs_off] in Hg; cbn [fst snd]; try reflexivity;
    destruct (code =? 200); try discriminate; reflexivity.
Qed.

(** X7. With a token that the bot accepts, a cursor file that loads and a
    negative timeout that [sleep] refuses, a request that raises, that is
    not answered with 200 or whose answer is not JSON does not lead to
    [exit(1)]: [sleep] raises and the run ends with [ValueError]. *)
Theorem negative_timeout_fetch (a : args) (en : env) (w : world) (P : Z) :
  sleep_refuses (timeout a) ->
  bot_accepts en (telegram_bot_token a) = true ->
  file_in_model (id_file w) = true ->
  cursor_of_file (id_file w) = Some P ->
  backs_off (http_get en (events_url a P)) = true ->
  fst (main_with_bot a en w) = Raise ValueError.
Proof.
  intros [_ Ht] Hb _ Hc Hg. rewrite (main_with_bot_accepted a en w Hb).
  pose proof (load_after_arguments a w P Hc) as Hl.
  set (w1 := extend (found_line a (id_file w)) 0 (snd (debug_msg MsgArguments a w))) in Hl.
  pose proof (fetch_events_negative_timeout a en P w1 Ht Hg) as Hf.
  destruct (fetch_events a en P w1) as [r w2] eqn:Hr. cbn [fst] in Hf. subst r.
  now rewrite (main_fetch_raises a en w P w1 ValueError w2 Hl Hr).
Qed.

Lemma negative_timeout_fetch_witness :
  sleep_refuses (timeout hasty_args)
  /\ fst (main_with_bot hasty_args (sample_env (Response 503 []) 0)
                        (sample_world FileAbsent))
     = Raise ValueError.
Proof.
  split; [unfold sleep_refuses, max_sleep; cbn; lia |].
  apply (negative_timeout_fetch hasty_args (sample_env (Response 503 []) 0)
           (sample_world FileAbsent) 0);
    [unfold sleep_refuses, max_sleep; cbn; lia | reflexivity ..].
Defined.

(** ** How often the bot is called *)

Section Calls.

Variables (a : args) (en : env).

Lemma count_call_extend x w : count_call (add_effect x w) = extend [x] 1 w.
Proof. unfold count_call, add_effect, extend. cbn. now rewrite Nat.add_1_r. Qed.

Lemma sends_failed_attempt e : sends (failed_attempt a e) = [notification a e].
Proof.
  unfold failed_attempt. rewrite !sends_app, sends_dbg. reflexivity.
Qed.

(** Whatever the bot and [sleep] do, [n] iterations of the loop call the
    bot at most [n] times, at least once when [n] is not 0, each time with
    the message of the event. *)
Lemma send_loop_sends k e w :
  exists t n,
    snd (send_loop k e a en w) = extend t n w
    /\ sends t = repeat (notification a e) n
    /\ (n <= k)%nat /\ (k <> O -> 1 <= n)%nat.
Proof.
  revert w. induction k as [|k IH]; intros w.
  - cbn [send_loop]. rewrite debug_msg_ok. exists (dbg a MsgSendFailed), O.
    rewrite sends_dbg. repeat split; try lia; congruence.
  - cbn [send_loop]. unfold bind at 1. unfold try_except, bind at 1, bot_sendMessage.
    rewrite count_call_extend.
    destruct (send_message en (bot_calls w)).
    + cbn [ret fst snd logger_info emit]. rewrite add_effect_extend, extend_extend.
      eexists _, _. split; [reflexivity |]. repeat split; cbn; try lia.
    + unfold bind at 1. rewrite debug_msg_ok, extend_extend. unfold bind at 1.
      destruct (Z.lt_ge_cases (timeout a) 0) as [Hneg | Hpos].
      * rewrite (steps_sleep_negative (timeout a) _ Hneg), extend_extend.
        cbn [fst snd]. eexists _, _. split; [reflexivity |].
        rewrite !sends_app, sends_dbg. repeat split; cbn; try lia.
      * rewrite (steps_sleep (timeout a) _ Hpos), extend_extend.
        cbn [ret fst snd].
        match goal with
        | |- context [send_loop k e a en ?w1] =>
            destruct (IH w1) as (t & n & Hw & Hs & Hle & _)
        end.
        rewrite Hw, extend_extend. eexists _, _. split; [reflexivity |].
        rewrite !sends_app, sends_dbg, Hs. repeat split; cbn; try lia.
Qed.

(** X8. Whatever the bot answers and whatever the timeout, [send_event]
    calls the bot at least once and at most three times, always with the
    message of its event, and touches neither the cursor file nor anything
    else of the world. *)
Theorem send_event_bound (e : event) (w : world) :
  exists t n,
    snd (send_event e a en w) = extend t n w
    /\ sends t = repeat (notification a e) n
    /\ (1 <= n <= 3)%nat.
Proof.
  destruct (send_loop_sends 3 e w) as (t & n & Hw & Hs & Hle & Hge).
  exists t, n. assert (1 <= n)%nat by (apply Hge; congruence). auto.
Qed.

Lemma parse_event_sends e w :
  exists t n,
    snd (parse_event e a en w) = extend t n w
    /\ sends t = repeat (notification a e) n
    /\ (n <= 3)%nat
    /\ (n <> O -> qualifies a en e = true).
Proof.
  rewrite parse_event_first_failing. unfold qualifies.
  destruct (spec_first_failing a en e) as [r |] eqn:Hf.
  - exists (dbg a (skip_line en e r)), O. cbn [snd]. rewrite sends_dbg.
    repeat split; try lia; congruence.
  - destruct (send_loop_sends 3 e w) as (t & n & Hw & Hs & Hle & _).
    exists t, n. split.
    + unfold bind, ret. fold (send_event e a en w) in Hw.
      destruct (send_event e a en w) as [[[] | x | code] w1]; exact Hw.
    + repeat split; auto. intros _. now apply find_none_passing.
Qed.

End Calls.

(** ** Which events are notified *)

Lemma fresh_above events last_id e :
  In e (fresh events last_id) -> In e events /\ last_id < ev_id e.
Proof.
  revert last_id. induction events as [|x rest IH]; intros last_id; cbn [fresh];
    [contradiction |].
  destruct (Z.leb_spec (ev_id x) last_id) as [Hle | Hlt].
  - intros H. apply IH in H as [H1 H2]. split; [now right | exact H2].
  - intros [<- | H]; [split; [now left | exact Hlt] |].
    apply IH in H as [H1 H2]. split; [now right | lia].
Qed.

Lemma fresh_increasing events last_id :
  StronglySorted (fun x y => ev_id x < ev_id y) (fresh events last_id).
Proof.
  revert last_id. induction events as [|x rest IH]; intros last_id; cbn [fresh];
    [constructor |].
  destruct (ev_id x <=? last_id); [apply IH |].
  constructor; [apply IH |].
  apply Forall_forall. intros y Hy. now apply fresh_above in Hy.
Qed.

Lemma StronglySorted_filter {A} (R : A -> A -> Prop) (f : A -> bool) l :
  StronglySorted R l -> StronglySorted R (filter f l).
Proof.
  induction 1 as [|x l Hl IH Hx]; cbn; [constructor |].
  destruct (f x); [| exact IH].
  constructor; [exact IH |].
  apply Forall_forall. intros y Hy. apply filter_In in Hy as [Hy _].
  rewrite Forall_forall in Hx. now apply Hx.
Qed.

Lemma fetch_events_some_inv a en last_id w events w' :
  fetch_events a en last_id w = (Ok (Some events), w') ->
  http_get en (events_url a last_id) = Response 200 events.
Proof.
  unfold fetch_events, bind, try_except, requests_get, resp_json, bind, debug_msg,
    logger_debug, logger_info, sleep, emit, ret, raise.
  destruct (0 <? verbose a),
    (http_get en (events_url a last_id)) as [| code body | code | code];
    cbn [fst snd]; try destruct (Z.eqb_spec code 200); destruct (timeout a <? 0);
    try discriminate; intros [= <- _]; now subst.
Qed.

Section Notified.

Variables (a : args) (en : env).

(** Whatever the bot and [sleep] do, the loop hands to the bot only messages
    of events that it did not skip and that pass the filter. *)
Lemma process_events_sends events last_id w :
  exists t n,
    snd (process_events a en events last_id w) = extend t n w
    /\ forall x, In x (sends t) ->
         exists e, In e (fresh events last_id)
                   /\ qualifies a en e = true /\ x = notification a e.
Proof.
  revert last_id w. induction events as [|e rest IH]; intros last_id w.
  - exists [], O. cbn. rewrite extend_nil. split; [reflexivity | contradiction].
  - cbn [process_events fresh]. unfold bind.
    destruct (Z.leb_spec (ev_id e) last_id) as [Hle | Hlt].
    + rewrite (loop_body_skips a en last_id e w Hle).
      destruct (IH last_id (extend (skipped_lines a e) 0 w)) as (t & n & Hw & Hin).
      rewrite Hw, extend_extend. eexists _, _. split; [reflexivity |].
      intros x. rewrite sends_app. unfold skipped_lines at 1.
      rewrite sends_app, !sends_dbg. cbn [app]. apply Hin.
    + rewrite (loop_body_parses a en last_id e w Hlt).
      set (w0 := extend (dbg a (MsgEvent e)) 0 w).
      destruct (parse_event_sends a en e w0) as (t1 & n1 & Hw1 & Hs1 & _ & Hq).
      assert (Hmine : forall x, In x (sends t1) ->
                        qualifies a en e = true /\ x = notification a e).
      { intros x Hx. rewrite Hs1 in Hx. split.
        - apply Hq. intros ->. contradiction.
        - now apply repeat_spec in Hx. }
      destruct (parse_event e a en w0) as [[c | x | code] w1] eqn:Hp;
        cbn [snd] in Hw1; subst w1 w0; rewrite extend_extend.
      * apply parse_event_value in Hp. subst c.
        destruct (IH (ev_id e) (extend (dbg a (MsgEvent e) ++ t1) (0 + n1) w))
          as (t & n & Hw & Hin).
        rewrite Hw, extend_extend. eexists _, _. split; [reflexivity |].
        intros x. rewrite !sends_app, sends_dbg. cbn [app].
        intros Hx. apply in_app_or in Hx as [Hx | Hx].
        -- exists e. destruct (Hmine x Hx). repeat split; auto. now left.
        -- destruct (Hin x Hx) as (e' & He' & Hq' & ->).
           exists e'. repeat split; auto. now right.
      * eexists _, _. split; [reflexivity |].
        intros y. rewrite sends_app, sends_dbg. cbn [app]. intros Hy.
        exists e. destruct (Hmine y Hy). repeat split; auto. now left.
      * eexists _, _. split; [reflexivity |].
        intros y. rewrite sends_app, sends_dbg. cbn [app]. intros Hy.
        exists e. destruct (Hmine y Hy). repeat split; auto. now left.
Qed.

(** When the bot delivers every message at once, the loop sends one
    message for each event that it does not skip and that passes the
    filter, in the order of the sequence. *)
Lemma process_events_delivering events last_id w :
  (forall k, send_message en k = true) ->
  exists t n,
    process_events a en events last_id w = (Ok (max_id events last_id), extend t n w)
    /\ sends t = map (notification a) (filter (qualifies a en) (fresh events last_id)).
Proof.
  intros Hbot. revert last_id w. induction events as [|e rest IH]; intros last_id w.
  - exists [], O. cbn. now rewrite extend_nil.
  - cbn [process_events fresh]. unfold bind.
    change (max_id (e :: rest) last_id) with (max_id rest (Z.max last_id (ev_id e))).
    destruct (Z.leb_spec (ev_id e) last_id) as [Hle | Hlt].
    + rewrite (loop_body_skips a en last_id e w Hle). rewrite Z.max_l by assumption.
      destruct (IH last_id (extend (skipped_lines a e) 0 w)) as (t & n & Hw & Hs).
      rewrite Hw, extend_extend. eexists _, _. split; [reflexivity |].
      rewrite sends_app. unfold skipped_lines at 1.
      now rewrite sends_app, !sends_dbg.
    + rewrite (loop_body_parses a en last_id e w Hlt). rewrite Z.max_r by lia.
      rewrite parse_event_first_failing. cbn [filter]. unfold qualifies at 1.
      destruct (spec_first_failing a en e) as [r |] eqn:Hf.
      * assert (Hq : forallb (spec_rule_passes a en e) spec_rules = false).
        { destruct (forallb _ spec_rules) eqn:Hq; [| reflexivity].
          apply find_none_passing in Hq. unfold spec_first_failing in Hf. congruence. }
        rewrite Hq, extend_extend.
        destruct (IH (ev_id e)
                    (extend (dbg a (MsgEvent e) ++ dbg a (skip_line en e r)) (0 + 0) w))
          as (t & n & Hw & Hs).
        rewrite Hw, extend_extend. eexists _, _. split; [reflexivity |].
        now rewrite !sends_app, !sends_dbg.
      * assert (Hq : forallb (spec_rule_passes a en e) spec_rules = true)
          by now apply find_none_passing.
        rewrite Hq. unfold bind at 1, send_event.
        rewrite (send_loop_delivered a en e 2 _ (Hbot _)), extend_extend.
        cbn [ret].
        destruct (IH (ev_id e)
                    (extend (dbg a (MsgEvent e) ++ delivered_attempt a e) (0 + 1) w))
          as (t & n & Hw & Hs).
        rewrite Hw, extend_extend. eexists _, _. split; [reflexivity |].
        now rewrite !sends_app, sends_dbg, Hs.
Qed.

End Notified.

(** X9. Whatever the bot, the timeout and the way the run ends: every
    message that a run hands to the bot is the message of an event of the
    fetched sequence whose id is above the loaded cursor and which passes
    all six rules of the filter. *)
Theorem only_fresh_qualifying_notified
  (a : args) (en : env) (w : world) (x : effect) :
  In x (sends (trace (snd (main a en w)))) ->
  In x (sends (trace w))
  \/ exists P events e,
       cursor_of_file (id_file w) = Some P
       /\ http_get en (events_url a P) = Response 200 events
       /\ In e events /\ P < ev_id e
       /\ qualifies a en e = true
       /\ x = notification a e.
Proof.
  destruct (cursor_of_file (id_file w)) as [P |] eqn:Hc.
  2:{ rewrite (main_load_raises a en w Hc). cbn.
      rewrite sends_app, sends_dbg, app_nil_r. now left. }
  assert (Hl : load_last_id a (snd (debug_msg MsgArguments a w))
               = (Ok P, extend (found_line a (id_file w)) 0
                               (extend (dbg a MsgArguments) 0 w))).
  { rewrite debug_msg_ok. cbn [snd].
    apply (load_last_id_loads a (extend (dbg a MsgArguments) 0 w) P Hc). }
  set (w1 := extend (found_line a (id_file w)) 0 (extend (dbg a MsgArguments) 0 w)) in *.
  destruct (fetch_events a en P w1) as [r w2] eqn:Hf.
  destruct (run_head_frame a en w P w1 r w2 Hl Hf) as (_ & _ & _ & Hs2).
  destruct r as [[events |] | y | code].
  - rewrite (main_fetch_some a en w P w1 events w2 Hl Hf).
    destruct (process_events_sends a en events P w2) as (t & n & Hw & Hin).
    assert (Hs3 : sends (trace (snd (process_events a en events P w2)))
                  = (sends (trace w) ++ sends t)%list).
    { rewrite Hw. cbn. now rewrite sends_app, Hs2. }
    assert (Hgoal : In x (sends (trace w) ++ sends t) ->
                    In x (sends (trace w))
                    \/ exists P0 events0 e,
                         Some P = Some P0
                         /\ http_get en (events_url a P0) = Response 200 events0
                         /\ In e events0 /\ P0 < ev_id e
                         /\ qualifies a en e = true /\ x = notification a e).
    { intros Hx. apply in_app_or in Hx as [Hx | Hx]; [now left | right].
      destruct (Hin x Hx) as (e & He & Hq & ->).
      apply fresh_above in He as [He1 He2].
      exists P, events, e. repeat split; auto.
      now apply (fetch_events_some_inv a en P w1 events w2). }
    destruct (process_events a en events P w2) as [[c | y | code] w3]; cbn [snd] in *.
    + destruct (save_last_id_bot a en c w3) as [_ Hs]. rewrite Hs, Hs3. exact Hgoal.
    + rewrite Hs3. exact Hgoal.
    + rewrite Hs3. exact Hgoal.
  - rewrite (main_fetch_none a en w P w1 w2 Hl Hf). cbn.
    rewrite sends_app, sends_dbg, app_nil_r, Hs2. now left.
  - rewrite (main_fetch_raises a en w P w1 y w2 Hl Hf). cbn. rewrite Hs2. now left.
  - destruct (tame_fetch_events a en P w1) as (_ & _ & _ & _ & Hx).
    rewrite Hf in Hx. now destruct (Hx code).
Qed.

(** In the run on cursor ["5"] and the events 6 and 8, the one message is
    that of event 6. *)
Lemma only_fresh_qualifying_notified_witness :
  In (notification sample_args inception) []
  \/ exists P events e,
       cursor_of_file (FileContent "5") = Some P
       /\ http_get (sample_env (Response 200 two_events) 0) (events_url sample_args P)
          = Response 200 events
       /\ In e events /\ P < ev_id e
       /\ qualifies sample_args (sample_env (Response 200 two_events) 0) e = true
       /\ notification sample_args inception = notification sample_args e.
Proof.
  apply (only_fresh_qualifying_notified sample_args
           (sample_env (Response 200 two_events) 0)
           (sample_world (FileContent "5")) (notification sample_args inception)).
  cbn. now left.
Defined.

(** X10. When the bot delivers every message at its first attempt, a run
    that loads [P] and fetches [events] ends with status 0 and has sent
    exactly one message for each event that the loop does not skip and that
    passes the filter, in the order of the sequence; the ids of the events
    notified go strictly up, so that no id is notified twice even when the
    sequence repeats or permutes events. *)
Theorem notified_once_in_order
  (a : args) (en : env) (w : world) (P : Z) (w1 : world)
  (events : list event) (w2 : world) :
  (forall k, send_message en k = true) ->
  load_last_id a (snd (debug_msg MsgArguments a w)) = (Ok P, w1) ->
  fetch_events a en P w1 = (Ok (Some events), w2) ->
  fst (main a en w) = Exit 0
  /\ sends (trace (snd (main a en w)))
     = (sends (trace w)
        ++ map (notification a) (filter (qualifies a en) (fresh events P)))%list
  /\ StronglySorted (fun x y => ev_id x < ev_id y)
                    (filter (qualifies a en) (fresh events P)).
Proof.
  intros Hbot Hl Hf.
  destruct (run_head_frame a en w P w1 _ w2 Hl Hf) as (_ & _ & _ & Hs2).
  rewrite (main_fetch_some a en w P w1 events w2 Hl Hf).
  destruct (process_events_delivering a en events P w2 Hbot) as (t & n & Hp & Hs).
  rewrite Hp. cbn [fst snd].
  destruct (save_last_id_bot a en (max_id events P) (extend t n w2)) as [_ Hs'].
  rewrite Hs'. cbn [trace extend]. rewrite sends_app, Hs2, Hs.
  repeat split. apply StronglySorted_filter, fresh_increasing.
Qed.

(** The server repeats event 6 after event 8: one message for 6, one for
    8, none for the repetition. *)
Lemma notified_once_in_order_witness :
  sends (trace (snd (main silent_args
                          (sample_env (Response 200 [inception; second_movie; inception]) 0)
                          (sample_world (FileContent "5")))))
  = [notification silent_args inception; notification silent_args second_movie].
Proof.
  eapply (notified_once_in_order silent_args
            (sample_env (Response 200 [inception; second_movie; inception]) 0)
            (sample_world (FileContent "5")) 5 _
            [inception; second_movie; inception]);
    reflexivity.
Defined.

(** ** The cursor after an unordered sequence *)

Lemma max_id_is_one events last_id :
  max_id events last_id = last_id
  \/ exists e, In e events /\ max_id events last_id = ev_id e.
Proof.
  revert last_id. induction events as [|x rest IH]; intros last_id; [now left |].
  change (max_id (x :: rest) last_id) with (max_id rest (Z.max last_id (ev_id x))).
  destruct (IH (Z.max last_id (ev_id x))) as [H | (e & He & H)].
  - rewrite H. destruct (Z.max_spec last_id (ev_id x)) as [[_ ->] | [_ ->]].
    + right. exists x. split; [now left | reflexivity].
    + now left.
  - right. exists e. split; [now right | exact H].
Qed.

(** X11. With a timeout that [sleep] accepts, the loop ends normally on
    every sequence, ordered or not, and its cursor is then the greatest of
    the loaded cursor and the ids of the sequence: not below any of them,
    and equal to one of them. *)
Theorem final_cursor_is_greatest
  (a : args) (en : env) (events : list event) (last_id : Z) (w : world) :
  sleep_accepts (timeout a) ->
  exists c w',
    process_events a en events last_id w = (Ok c, w')
    /\ last_id <= c
    /\ (forall e, In e events -> ev_id e <= c)
    /\ (c = last_id \/ exists e, In e events /\ c = ev_id e).
Proof.
  intros [Ht _].
  destruct (process_events_returns a en events last_id w Ht) as (t & n & Hp).
  exists (max_id events last_id), (extend t n w).
  split; [exact Hp |]. split; [apply max_id_ge_last |].
  split; [intros e; apply max_id_ge_ids | apply max_id_is_one].
Qed.

(** Ids 8, 6, 3 from cursor 5: the loop ends with 8. *)
Lemma final_cursor_is_greatest_witness :
  exists c w',
    process_events sample_args (sample_env RequestFails 0)
                   [second_movie; inception; stale_event] 5 (sample_world FileAbsent)
    = (Ok c, w')
    /\ 5 <= c
    /\ (forall e, In e [second_movie; inception; stale_event] -> ev_id e <= c)
    /\ (c = 5 \/ exists e, In e [second_movie; inception; stale_event] /\ c = ev_id e).
Proof.
  apply (final_cursor_is_greatest sample_args (sample_env RequestFails 0)
           [second_movie; inception; stale_event] 5 (sample_world FileAbsent)).
  unfold sleep_accepts, max_sleep. cbn. lia.
Defined.

(** ** Whitespace around the stored cursor *)

Lemma lstrip_all_space s : all_space s -> Py.lstrip s = EmptyString.
Proof.
  induction s as [|c r IH]; intros H; [reflexivity |].
  cbn [Py.lstrip]. rewrite (H c) by (left; reflexivity).
  apply IH. intros x Hx. apply H. now right.
Qed.

Lemma lstrip_app_left pre s : all_space pre -> Py.lstrip (pre ++ s) = Py.lstrip s.
Proof.
  induction pre as [|c r IH]; intros H; [reflexivity |].
  cbn [append Py.lstrip]. rewrite (H c) by (left; reflexivity).
  apply IH. intros x Hx. apply H. now right.
Qed.

Lemma rstrip_all_space s : all_space s -> Py.rstrip s = EmptyString.
Proof.
  induction s as [|c r IH]; intros H; [reflexivity |].
  cbn [Py.rstrip]. rewrite IH by (intros x Hx; apply H; now right).
  now rewrite (H c) by (left; reflexivity).
Qed.

Lemma rstrip_app_right s post : all_space post -> Py.rstrip (s ++ post) = Py.rstrip s.
Proof.
  intros H. induction s as [|c r IH]; [now apply rstrip_all_space |].
  cbn [append Py.rstrip]. now rewrite IH.
Qed.

Lemma lstrip_app_right s post :
  all_space post ->
  Py.rstrip (Py.lstrip (s ++ post)) = Py.rstrip (Py.lstrip s).
Proof.
  intros H. induction s as [|c r IH].
  - cbn [append]. rewrite lstrip_all_space by assumption. reflexivity.
  - cbn [append Py.lstrip]. destruct (Py.is_space c); [exact IH |].
    now apply (rstrip_app_right (String c r)).
Qed.

Lemma strip_surrounded pre s post :
  all_space pre -> all_space post -> Py.strip (pre ++ s ++ post) = Py.strip s.
Proof.
  intros Hpre Hpost. unfold Py.strip.
  rewrite lstrip_app_left by assumption. now apply lstrip_app_right.
Qed.

(** X12. Whitespace before and after the content of the cursor file makes
    no difference to the load: the file written by [echo 5 > file], with
    its newline, loads as the file that holds ["5"], and a content that is
    refused stays refused. *)
Theorem load_ignores_whitespace (a : args) (w w' : world) (pre s post : string) :
  all_space pre -> all_space post ->
  id_file w = FileContent (pre ++ s ++ post) ->
  id_file w' = FileContent s ->
  fst (load_last_id a w) = fst (load_last_id a w').
Proof.
  intros Hpre Hpost Hw Hw'. unfold load_last_id. rewrite Hw, Hw'.
  assert (Hint : Py.int (pre ++ s ++ post) = Py.int s).
  { unfold Py.int. now rewrite strip_surrounded. }
  rewrite Hint. destruct (Py.int s) as [n |]; [| reflexivity].
  unfold bind, ret. now rewrite !debug_msg_ok.
Qed.

Lemma load_ignores_whitespace_witness :
  fst (load_last_id sample_args (sample_world (FileContent (" 5" ++ newline))))
  = Ok 5.
Proof.
  apply (load_ignores_whitespace sample_args
           (sample_world (FileContent (" 5" ++ newline)))
           (sample_world (FileContent "5")) " " "5" newline).
  - intros c [<- | []]. reflexivity.
  - intros c [<- | []]. reflexivity.
  - reflexivity.
  - reflexivity.
Defined.

(** ** The text of the message *)




(** ** A negative timeout and the retries *)

(** X14. With a negative timeout that [sleep] refuses there is no retry:
    when the first attempt of [send_event] fails, [sleep] raises and
    [send_event] ends with [ValueError] after that single call to the
    bot. *)
Theorem negative_timeout_delivery (a : args) (en : env) (e : event) (w : world) :
  sleep_refuses (timeout a) ->
  send_message en (bot_calls w) = false ->
  fst (send_event e a en w) = Raise ValueError
  /\ bot_calls (snd (send_event e a en w)) = S (bot_calls w).
Proof.
  intros [_ Ht] Hs.
  assert (H : exists t, send_event e a en w = (Raise ValueError, extend t 1 w)).
  { eexists. unfold send_event. cbn [send_loop].
    unfold bind at 1. unfold try_except, bind at 1, bot_sendMessage.
    rewrite Hs, count_call_extend. unfold bind at 1.
    rewrite debug_msg_ok, extend_extend. unfold bind at 1.
    rewrite (steps_sleep_negative (timeout a) _ Ht), extend_extend. reflexivity. }
  destruct H as [t H]. rewrite H. cbn [fst snd bot_calls extend]. split; [reflexivity | lia].
Qed.

Lemma negative_timeout_delivery_witness :
  fst (send_event inception hasty_args (flaky_env RequestFails 0 WriteDone)
                  (sample_world FileAbsent))
  = Raise ValueError
  /\ bot_calls (snd (send_event inception hasty_args (flaky_env RequestFails 0 WriteDone)
                                (sample_world FileAbsent)))
     = 1%nat.
Proof.
  apply (negative_timeout_delivery hasty_args (flaky_env RequestFails 0 WriteDone)
           inception (sample_world FileAbsent));
    [unfold sleep_refuses, max_sleep; cbn; lia | reflexivity].
Defined.

(** ** A token that the bot refuses *)

(** X15. With a token that [Bot] refuses, a run ends with [InvalidToken]
    right after the debug line of the arguments: the cursor file is not
    read or written, no request is sent and nothing is notified, whatever
    the cursor file holds. *)
Theorem refused_token_ends_run (a : args) (en : env) (w : world) :
  bot_accepts en (telegram_bot_token a) = false ->
  main_with_bot a en w = (Raise InvalidToken, extend (dbg a MsgArguments) 0 w)
  /\ id_file (snd (main_with_bot a en w)) = id_file w
  /\ requests (trace (snd (main_with_bot a en w))) = requests (trace w)
  /\ sends (trace (snd (main_with_bot a en w))) = sends (trace w)
  /\ writes (trace (snd (main_with_bot a en w))) = writes (trace w).
Proof.
  intros Hb. rewrite (main_with_bot_rejected a en w Hb). cbn [snd id_file trace extend].
  split; [reflexivity |]. split; [reflexivity |].
  unfold requests at 1. rewrite filter_app. fold (requests (dbg a MsgArguments)).
  rewrite sends_app, writes_app, requests_dbg, sends_dbg, writes_dbg.
  now rewrite !app_nil_r.
Qed.

(** A token without digits before a colon, and a cursor file that would
    not load: the run ends at the construction of the bot. *)
Lemma refused_token_ends_run_witness :
  bot_accepts (sample_env (Response 200 two_events) 0)
              (telegram_bot_token malformed_token_args) = false
  /\ main_with_bot malformed_token_args (sample_env (Response 200 two_events) 0)
                   (sample_world (FileContent "abc"))
     = (Raise InvalidToken,
        extend [LogDebug MsgArguments] 0 (sample_world (FileContent "abc"))).
Proof.
  split; [reflexivity |].
  exact (proj1 (refused_token_ends_run malformed_token_args
                  (sample_env (Response 200 two_events) 0)
                  (sample_world (FileContent "abc")) eq_refl)).
Defined.
